(** * latitude_inventory: the Latitude dynamic inventory plugin

    A shallow embedding of [latitude_inventory.py] (class [InventoryModule]:
    [parse], [get_servers], [add_sever], [get_hosts_group]) and the
    properties of its fetch / map / classify / assemble pipeline.

    The plugin talks to two collaborators that are not part of it: the HTTP
    client ([requests]) and the inventory framework (the inventory object and
    the [Constructable] helpers).  Every call to them is recorded, in order,
    with its arguments; whether a call raises is decided by an environment
    the development quantifies over. *)

From Stdlib Require Import String Ascii List ZArith Lia Bool.
From stdpp Require Import base option list gmap strings.
Import ListNotations.

Set Warnings "-register-all".

Local Open Scope string_scope.
Local Open Scope list_scope.

(** ** Python values *)

(** The values the plugin handles: JSON scalars and lists as they come out
    of the API, option values, and the [str | None] group label. *)
Inductive pyval : Type :=
| PyNone
| PyInt (n : Z)
| PyStr (s : string)
| PyList (l : list pyval).

(** [bool(v)], as the [if] and [and] of the source apply it. *)
Definition truthy (v : pyval) : bool :=
  match v with
  | PyNone => false
  | PyInt n => negb (n =? 0)%Z
  | PyStr s => negb (String.eqb s EmptyString)
  | PyList l => match l with [] => false | _ :: _ => true end
  end.

(** [a == b]: values of different types are never equal; lists are compared
    element by element. *)
Fixpoint py_eq (a b : pyval) : bool :=
  match a, b with
  | PyNone, PyNone => true
  | PyInt m, PyInt n => (m =? n)%Z
  | PyStr s, PyStr t => String.eqb s t
  | PyList l, PyList m =>
      (fix all2 (l m : list pyval) : bool :=
         match l, m with
         | [], [] => true
         | x :: l', y :: m' => py_eq x y && all2 l' m'
         | _, _ => false
         end) l m
  | _, _ => false
  end.

(** [a != b] *)
Definition py_ne (a b : pyval) : bool := negb (py_eq a b).

(** The group label, [str | None], as a value. *)
Definition of_group (group : option string) : pyval :=
  match group with
  | Some g => PyStr g
  | None => PyNone
  end.

(** [s.split(sep)] for a one-character separator: every occurrence of the
    separator ends a component, so the result has one component more than
    there are separators, and is never empty. *)
Fixpoint str_split (sep : ascii) (s : string) : list string :=
  match s with
  | EmptyString => [EmptyString]
  | String c rest =>
      if Ascii.eqb c sep then EmptyString :: str_split sep rest
      else match str_split sep rest with
           | w :: ws => String c w :: ws
           | [] => [String c EmptyString]
           end
  end.

(** A [dict] built by assignments, in insertion order: [d[k] = v]. *)
Fixpoint dict_set (d : list (string * pyval)) (k : string) (v : pyval)
  : list (string * pyval) :=
  match d with
  | [] => [(k, v)]
  | (k', v') :: d' =>
      if String.eqb k' k then (k, v) :: d' else (k', v') :: dict_set d' k v
  end.

(** ** Data model *)

(** [ServerAttributes]: a dict; the keys the API left out are absent. *)
Abbreviation ServerAttributes := (gmap string pyval).

(** [Server]: [id], [type] and [attributes]. *)
Record Server := {
  server_id : string;
  server_type : string;
  attributes : option ServerAttributes
}.

(** The [host_vars] dict of [add_sever]. *)
Abbreviation HostVars := (list (string * pyval)).

(** The arguments of one [requests.get]. *)
Record Request := {
  url : string;
  headers : list (string * pyval);
  params : list (string * pyval);
  timeout : Z
}.

(** The JSON body of a response: a dict that may hold [data]. The body is
    taken to be a JSON object whose [data], when present, is a list of
    records, as the API documents it; other JSON bodies are not modelled. *)
Record Body := { data : option (list Server) }.

(** A response, as far as the plugin looks at it: whether
    [raise_for_status()] raises, and what [json()] gives ([None] when the
    body is not JSON). *)
Record Response := {
  status_error : bool;
  json_body : option Body
}.

(** The options [get_option] returns, once [_read_config_data] has run. *)
Record Config := {
  latitude_project : pyval;
  latitude_api_token : pyval;
  include_tags : pyval;
  exclude_tags : pyval;
  strict : bool;
  compose : list (string * string);
  groups : list (string * string);
  keyed_groups : list (list (string * string))
}.

Inductive Exn :=
| KeyError (key : string)
| IndexError
| AttributeError (name : string)
| HTTPError
| RequestException
| JSONDecodeError
| AnsibleError (msg : string).

(** The calls the plugin makes to its collaborators. *)
Inductive Event :=
| BaseParse (path : string) (cache : bool)
| ReadConfigData (path : string)
| HttpGet (req : Request)
| AddGroup (group : string)
| AddHost (host : string) (group : option string)
| SetVariable (host : string) (name : string) (value : pyval)
| SetCompositeVars (compose : list (string * string)) (variables : HostVars)
    (host : string) (strict : bool)
| AddHostToComposedGroups (groups : list (string * string))
    (variables : HostVars) (host : string) (strict : bool)
| AddHostToKeyedGroups (keyed_groups : list (list (string * string)))
    (variables : HostVars) (host : string) (strict : bool).

(** The collaborators: what the API answers to a request (or the exception
    [requests.get] raises), and whether a framework call raises, given the
    calls made before it. *)
Record Env := {
  http : Request -> Exn + Response;
  framework : list Event -> Event -> option Exn
}.

(** ** Computations

    A computation reads the calls made so far and gives the calls it makes
    and how it ends: it returns, it raises, or the fuel of a loop ran out. *)

Inductive Outcome (A : Type) :=
| Return (a : A)
| Raise (e : Exn)
| OutOfFuel.
Arguments Return {A} a.
Arguments Raise {A} e.
Arguments OutOfFuel {A}.

Definition M (A : Type) : Type := list Event -> list Event * Outcome A.

Definition ret {A} (a : A) : M A := fun _ => ([], Return a).

Definition raise {A} (e : Exn) : M A := fun _ => ([], Raise e).

Definition out_of_fuel {A} : M A := fun _ => ([], OutOfFuel).

Definition bind {A B} (m : M A) (f : A -> M B) : M B :=
  fun hist =>
    let (evs, o) := m hist in
    match o with
    | Return a => let (evs', o') := f a (hist ++ evs) in (evs ++ evs', o')
    | Raise e => (evs, Raise e)
    | OutOfFuel => (evs, OutOfFuel)
    end.

Declare Scope py_scope.
Delimit Scope py_scope with py.
Notation "x <- m ;; k" := (bind m (fun x => k))
  (at level 100, m at next level, right associativity) : py_scope.
Notation "m ;; k" := (bind m (fun _ => k))
  (at level 100, right associativity) : py_scope.
Local Open Scope py_scope.

(** [with suppress(IndexError): m] *)
Definition is_IndexError (e : Exn) : bool :=
  match e with
  | IndexError => true
  | _ => false
  end.

Definition suppress (caught : Exn -> bool) (m : M unit) : M unit :=
  fun hist =>
    let (evs, o) := m hist in
    (evs, match o with
          | Raise e => if caught e then Return tt else Raise e
          | _ => o
          end).

(** [for x in xs: body(x)] *)
Fixpoint for_each {A} (xs : list A) (body : A -> M unit) : M unit :=
  match xs with
  | [] => ret tt
  | x :: xs' => body x ;; for_each xs' body
  end.

(** [d[k]] on an attribute dict *)
Definition getitem (d : ServerAttributes) (k : string) : M pyval :=
  match d !! k with
  | Some v => ret v
  | None => raise (KeyError k)
  end.

(** A method of [str] called on a value: any other value has no such
    attribute. *)
Definition str_receiver (method : string) (v : pyval) : M string :=
  match v with
  | PyStr s => ret s
  | _ => raise (AttributeError method)
  end.

(** ** The plugin *)

Section InventoryModule.
Context (E : Env) (cfg : Config).

(** A call to the framework. *)
Definition call (ev : Event) : M unit :=
  fun hist =>
    ([ev], match framework E hist ev with
           | Some e => Raise e
           | None => Return tt
           end).

(** [requests.get(url, headers=headers, params=params, timeout=10)] *)
Definition requests_get (req : Request) : M Response :=
  fun _ =>
    ([HttpGet req], match http E req with
                    | inl e => Raise e
                    | inr r => Return r
                    end).

(** [response.raise_for_status()] *)
Definition raise_for_status (response : Response) : M unit :=
  if status_error response then raise HTTPError else ret tt.

(** [response.json()] *)
Definition json (response : Response) : M Body :=
  match json_body response with
  | Some b => ret b
  | None => raise JSONDecodeError
  end.

(** The request of [get_servers] for one page. *)
Definition page_request (page : Z) : Request :=
  {| url := "https://api.latitude.sh/servers";
     headers := [("accept", PyStr "application/json");
                 ("Authorization", latitude_api_token cfg)];
     params := [("filter[project]", latitude_project cfg);
                ("sort", PyStr "id");
                ("page[number]", PyInt page)];
     timeout := 10 |}.

(** [get_servers], lines 133-162. The [while True] loop, one unit of fuel
    per pass: the request, [raise_for_status], [json().get("data", [])],
    then [break] on an empty list or [all_servers += servers] and
    [page += 1]. *)
Fixpoint get_servers_loop (fuel : nat) (page : Z) (all_servers : list Server)
  : M (list Server) :=
  match fuel with
  | O => out_of_fuel
  | S fuel' =>
      response <- requests_get (page_request page) ;;
      raise_for_status response ;;
      body <- json response ;;
      let servers := default [] (data body) in
      match servers with
      | [] => ret all_servers
      | _ :: _ => get_servers_loop fuel' (page + 1) (all_servers ++ servers)
      end
  end.

Definition get_servers (fuel : nat) : M (list Server) :=
  get_servers_loop fuel 1 [].

(** [get_hosts_group], lines 195-206. In the [with suppress(IndexError)]
    block, [hostname.split("-")[1]] either raises [IndexError], which
    leaves [group] at [None], or assigns [group]; [add_group] is then called,
    and an [IndexError] of its own is suppressed as well. The two filter
    tests follow, on the option values as they are. *)
Definition get_hosts_group (hostname : string) : M (option string) :=
  group <- match nth_error (str_split "-" hostname) 1 with
           | Some g => suppress is_IndexError (call (AddGroup g)) ;;
                       ret (Some g)
           | None => ret None
           end ;;
  let include_tags := include_tags cfg in
  if truthy include_tags && py_ne include_tags (of_group group)
  then ret None
  else
    let exclude_tags := exclude_tags cfg in
    if truthy exclude_tags && py_eq exclude_tags (of_group group)
    then ret None
    else ret group.

(** [add_sever], lines 164-193. [hostname] is used as a [str] from its
    first use on, the call of [split] in [get_hosts_group]: any other value
    raises there, before any call is made. *)
Definition add_sever (server : Server) : M unit :=
  server_attributes <- match attributes server with
                       | Some a => ret a
                       | None => raise (KeyError "attributes")
                       end ;;
  hostname <- getitem server_attributes "hostname" ;;
  hostname <- str_receiver "split" hostname ;;
  group <- get_hosts_group hostname ;;
  call (AddHost hostname group) ;;
  public_ip_address <- getitem server_attributes "primary_ipv4" ;;
  let host_vars := dict_set [] "public_ip_address" public_ip_address in
  let host_vars := dict_set host_vars "server_name" (PyStr hostname) in
  let host_vars := dict_set host_vars "group" (of_group group) in
  for_each host_vars
    (fun '(var_name, var_value) =>
       call (SetVariable hostname var_name var_value)) ;;
  let strict := strict cfg in
  call (SetCompositeVars (compose cfg) host_vars hostname true) ;;
  call (AddHostToComposedGroups (groups cfg) host_vars hostname strict) ;;
  call (AddHostToKeyedGroups (keyed_groups cfg) host_vars hostname strict).

(** [parse], lines 116-131. [Server(server)] builds the dict it is given. *)
Definition parse (fuel : nat) (path : string) (cache : bool) : M unit :=
  call (BaseParse path cache) ;;
  call (ReadConfigData path) ;;
  servers <- get_servers fuel ;;
  for_each servers add_sever.

End InventoryModule.

(** ** Sample collaborators and data *)

(** A framework that accepts every call. *)
Definition quiet : list Event -> Event -> option Exn := fun _ _ => None.

(** [page[number]] of a request. *)
Definition page_number (req : Request) : option Z :=
  match list_find (fun kv => String.eqb (fst kv) "page[number]") (params req) with
  | Some (_, (_, PyInt n)) => Some n
  | _ => None
  end.

(** A successful response carrying [servers] as its [data]. *)
Definition ok_page (servers : list Server) : Response :=
  {| status_error := false; json_body := Some {| data := Some servers |} |}.

(** An API that holds [pages] and answers every page past them with an
    empty [data]. *)
Definition paged (pages : list (list Server)) (req : Request) : Exn + Response :=
  match page_number req with
  | Some n => inr (ok_page (nth (Z.to_nat (n - 1)) pages []))
  | None => inl RequestException
  end.

(** The same API, answering page [bad] with an error status. *)
Definition paged_failing (pages : list (list Server)) (bad : Z) (req : Request)
  : Exn + Response :=
  match page_number req with
  | Some n =>
      if (n =? bad)%Z then inr {| status_error := true; json_body := None |}
      else inr (ok_page (nth (Z.to_nat (n - 1)) pages []))
  | None => inl RequestException
  end.

Definition no_filters : Config :=
  {| latitude_project := PyStr "proj_1";
     latitude_api_token := PyStr "token";
     include_tags := PyNone;
     exclude_tags := PyNone;
     strict := false;
     compose := [];
     groups := [];
     keyed_groups := [] |}.

Definition with_include (tags : pyval) (c : Config) : Config :=
  {| latitude_project := latitude_project c;
     latitude_api_token := latitude_api_token c;
     include_tags := tags;
     exclude_tags := exclude_tags c;
     strict := strict c;
     compose := compose c;
     groups := groups c;
     keyed_groups := keyed_groups c |}.

Definition with_exclude (tags : pyval) (c : Config) : Config :=
  {| latitude_project := latitude_project c;
     latitude_api_token := latitude_api_token c;
     include_tags := include_tags c;
     exclude_tags := tags;
     strict := strict c;
     compose := compose c;
     groups := groups c;
     keyed_groups := keyed_groups c |}.

Definition server_of (ident : string) (attrs : list (string * pyval)) : Server :=
  {| server_id := ident;
     server_type := "servers";
     attributes := Some (list_to_map attrs) |}.

Definition db_staging_1 : Server :=
  server_of "sv_1" [("hostname", PyStr "db-staging-1");
                    ("primary_ipv4", PyStr "10.0.0.1")].

Definition web_prod_2 : Server :=
  server_of "sv_2" [("hostname", PyStr "web-prod-2");
                    ("primary_ipv4", PyStr "10.0.0.2")].

Definition server1 : Server :=
  server_of "sv_3" [("hostname", PyStr "server1");
                    ("primary_ipv4", PyStr "10.0.0.3")].

Definition no_ip : Server :=
  server_of "sv_4" [("hostname", PyStr "web-prod-01")].

Definition null_ip : Server :=
  server_of "sv_6" [("hostname", PyStr "web-prod-03");
                    ("primary_ipv4", PyNone)].

Definition no_hostname : Server :=
  server_of "sv_5" [("primary_ipv4", PyStr "10.0.0.5")].

Definition sample_env (pages : list (list Server)) : Env :=
  {| http := paged pages; framework := quiet |}.

(** ** Observations on a run *)

(** The hostname under which a record is registered, when it has one. *)
Definition hostname_of (server : Server) : option string :=
  match attributes server with
  | Some attrs =>
      match attrs !! "hostname" with
      | Some (PyStr hostname) => Some hostname
      | _ => None
      end
  | None => None
  end.

(** The hosts registered by a sequence of calls, one per [add_host]. *)
Definition added_hosts (evs : list Event) : list string :=
  omap (fun ev => match ev with
                  | AddHost host _ => Some host
                  | _ => None
                  end) evs.

(** The records a response hands to [get_servers]: none when
    [raise_for_status] or [json] raises, [data] (by default the empty list)
    otherwise. *)
Definition page_of (response : Response) : option (list Server) :=
  if status_error response then None
  else match json_body response with
       | Some body => Some (default [] (data body))
       | None => None
       end.

(** The strict flag of a delegation: [True] for the composite variables,
    the configured option for the two group builders. *)
Definition strict_flag_ok (cfg : Config) (ev : Event) : Prop :=
  match ev with
  | SetCompositeVars _ _ _ flag => flag = true
  | AddHostToComposedGroups _ _ _ flag => flag = strict cfg
  | AddHostToKeyedGroups _ _ _ flag => flag = strict cfg
  | _ => True
  end.

(** Calls on the inventory object itself. *)
Definition inventory_call (ev : Event) : Prop :=
  match ev with
  | AddGroup _ | AddHost _ _ | SetVariable _ _ _ => True
  | _ => False
  end.

(** Calls that register no host. *)
Definition adds_no_host (ev : Event) : Prop :=
  match ev with
  | AddHost _ _ => False
  | _ => True
  end.

(** Calls that register neither a host nor a group. *)
Definition registers_nothing (ev : Event) : Prop :=
  match ev with
  | AddHost _ _ | AddGroup _ => False
  | _ => True
  end.

(** The [host_vars] dict [add_sever] builds for a host. *)
Definition host_vars_of (hostname : string) (ip : pyval) (group : option string)
  : HostVars :=
  [("public_ip_address", ip); ("server_name", PyStr hostname);
   ("group", of_group group)].

(** The API answers page 1, 2, ... with the given lists of records. *)
Definition serves (E : Env) (cfg : Config) (pages : list (list Server)) : Prop :=
  forall (i : nat) (p : list Server),
    nth_error pages i = Some p ->
    exists r, http E (page_request cfg (Z.of_nat (S i))) = inr r /\
              page_of r = Some p.

(** Every host registered under a group comes after the registration of
    that group. *)
Definition registered_before (evs : list Event) : Prop :=
  forall pre host g post,
    evs = pre ++ AddHost host (Some g) :: post -> In (AddGroup g) pre.

(** The calls [parse] makes before it fetches. *)
Definition setup_call (ev : Event) : Prop :=
  match ev with
  | BaseParse _ _ | ReadConfigData _ => True
  | _ => False
  end.

(** The calls [add_sever] makes. *)
Definition assembler_call (ev : Event) : Prop :=
  match ev with
  | BaseParse _ _ | ReadConfigData _ | HttpGet _ => False
  | _ => True
  end.

(** A computation that has no loop to run out of fuel in. *)
Definition finishes {A} (m : M A) : Prop :=
  forall hist, snd (m hist) <> OutOfFuel.

(** Every call a computation makes satisfies [P], whatever came before. *)
Definition emits {A} (P : Event -> Prop) (m : M A) : Prop :=
  forall hist, Forall P (fst (m hist)).

(** ** The file gate *)

(** [s.endswith(suffix)]: [s] is at least as long as [suffix] and its last
    [len(suffix)] characters are [suffix]. *)
Definition str_endswith (s suffix : string) : bool :=
  Nat.leb (String.length suffix) (String.length s) &&
  String.eqb (substring (String.length s - String.length suffix)
                (String.length suffix) s)
             suffix.

(** [s.endswith(suffixes)] for a tuple of suffixes: one of them matches. *)
Definition str_endswith_any (s : string) (suffixes : list string) : bool :=
  existsb (str_endswith s) suffixes.

(** [verify_file], lines 110-114. [base] is [verify_file] of the parent
    class, which belongs to the framework. *)
Definition verify_file (base : string -> bool) (path : string) : bool :=
  base path && str_endswith_any path ["latitude.yaml"; "latitude.yml"].

(** ** Further observations *)

(** [c in s] *)
Fixpoint has_char (c : ascii) (s : string) : bool :=
  match s with
  | EmptyString => false
  | String c' rest => Ascii.eqb c' c || has_char c rest
  end.

(** [sep.join(parts)] *)
Fixpoint str_join (sep : ascii) (parts : list string) : string :=
  match parts with
  | [] => EmptyString
  | [p] => p
  | p :: (_ :: _) as ps => append p (String sep (str_join sep ps))
  end.

(** How a page request fails, if it does: the exception of [requests.get],
    of [raise_for_status] or of [json]. *)
Definition failure_of (E : Env) (req : Request) : option Exn :=
  match http E req with
  | inl e => Some e
  | inr r =>
      if status_error r then Some HTTPError
      else match json_body r with
           | Some _ => None
           | None => Some JSONDecodeError
           end
  end.

(** The page requests. *)
Definition http_call (ev : Event) : Prop :=
  match ev with
  | HttpGet _ => True
  | _ => False
  end.

(** The calls of the assembler that concern the host [hostname]; a group
    registration names no host. *)
Definition about_host (hostname : string) (ev : Event) : Prop :=
  match ev with
  | AddGroup _ => True
  | AddHost host _ => host = hostname
  | SetVariable host _ _ => host = hostname
  | SetCompositeVars _ _ host _ => host = hostname
  | AddHostToComposedGroups _ _ host _ => host = hostname
  | AddHostToKeyedGroups _ _ host _ => host = hostname
  | _ => False
  end.

(** The calls [add_sever] makes for a host once the classifier has returned
    [group]. *)
Definition registration_calls (cfg : Config) (hostname : string) (ip : pyval)
    (group : option string) : list Event :=
  [AddHost hostname group;
   SetVariable hostname "public_ip_address" ip;
   SetVariable hostname "server_name" (PyStr hostname);
   SetVariable hostname "group" (of_group group);
   SetCompositeVars (compose cfg) (host_vars_of hostname ip group) hostname true;
   AddHostToComposedGroups (groups cfg) (host_vars_of hostname ip group)
     hostname (strict cfg);
   AddHostToKeyedGroups (keyed_groups cfg) (host_vars_of hostname ip group)
     hostname (strict cfg)].

(** A record without [attributes], and one whose hostname is null. *)
Definition no_attributes : Server :=
  {| server_id := "sv_7"; server_type := "servers"; attributes := None |}.

Definition null_hostname : Server :=
  server_of "sv_8" [("hostname", PyNone); ("primary_ipv4", PyStr "10.0.0.8")].

(** A host is put in a group only if the group is the second field of its
    own hostname. *)
Definition grouped_by_hostname (ev : Event) : Prop :=
  match ev with
  | AddHost host (Some g) => nth_error (str_split "-" host) 1 = Some g
  | _ => True
  end.

(** No host is put in a group. *)
Definition adds_ungrouped (ev : Event) : Prop :=
  match ev with
  | AddHost _ (Some _) => False
  | _ => True
  end.

(** An option as the schema of the plugin gives it: unset, or a list. *)
Definition unset_or_list (v : pyval) : Prop :=
  v = PyNone \/ exists l, v = PyList l.

(** An API that holds [pages] and gives [answer] for the page [bad]. *)
Definition paged_broken (pages : list (list Server)) (bad : Z)
    (answer : Exn + Response) (req : Request) : Exn + Response :=
  match page_number req with
  | Some n =>
      if (n =? bad)%Z then answer
      else inr (ok_page (nth (Z.to_nat (n - 1)) pages []))
  | None => inl RequestException
  end.

(** An API that answers every page with the same non-empty list. *)
Definition endless (servers : list Server) (req : Request) : Exn + Response :=
  inr (ok_page (server1 :: servers)).

(** A framework that rejects the calls [rejected] picks, with [e]. *)
Definition rejecting (rejected : Event -> bool) (e : Exn)
  : list Event -> Event -> option Exn :=
  fun _ ev => if rejected ev then Some e else None.


Definition is_add_group (ev : Event) : bool :=
  match ev with
  | AddGroup _ => true
  | _ => false
  end.

Definition is_read_config_data (ev : Event) : bool :=
  match ev with
  | ReadConfigData _ => true
  | _ => false
  end.

(** ** Running computations *)

Lemma bind_events {A B} (m : M A) (f : A -> M B) hist :
  fst (bind m f hist) =
  fst (m hist) ++ match snd (m hist) with
                  | Return a => fst (f a (hist ++ fst (m hist)))
                  | _ => []
                  end.
Proof.
  unfold bind. destruct (m hist) as [evs [a | e | ]]; simpl.
  - destruct (f a (hist ++ evs)); reflexivity.
  - symmetry; apply app_nil_r.
  - symmetry; apply app_nil_r.
Qed.

Lemma bind_outcome {A B} (m : M A) (f : A -> M B) hist :
  snd (bind m f hist) =
  match snd (m hist) with
  | Return a => snd (f a (hist ++ fst (m hist)))
  | Raise e => Raise e
  | OutOfFuel => OutOfFuel
  end.
Proof.
  unfold bind. destruct (m hist) as [evs [a | e | ]]; simpl; try reflexivity.
  destruct (f a (hist ++ evs)); reflexivity.
Qed.

Lemma bind_ret {A B} (a : A) (f : A -> M B) hist :
  bind (ret a) f hist = f a hist.
Proof.
  unfold bind, ret. rewrite app_nil_r. destruct (f a hist); reflexivity.
Qed.

(** ** The classifier *)

Lemma py_eq_list_group (l : list pyval) (group : option string) :
  py_eq (PyList l) (of_group group) = false.
Proof. destruct group; reflexivity. Qed.

Lemma second_component (parts : list string) :
  2 <= length parts -> exists g, nth_error parts 1 = Some g.
Proof.
  destruct parts as [ | a [ | b parts]]; simpl; intros H; try lia.
  exists b; reflexivity.
Qed.

Lemma no_second_component (parts : list string) :
  length parts < 2 -> nth_error parts 1 = None.
Proof.
  destruct parts as [ | a [ | b parts]]; simpl; intros H; try lia; reflexivity.
Qed.

Example split_web_prod_01 : str_split "-" "web-prod-01" = ["web"; "prod"; "01"].
Proof. reflexivity. Qed.

Example split_server1 : str_split "-" "server1" = ["server1"].
Proof. reflexivity. Qed.

Example split_empty_components : str_split "-" "a--b-" = ["a"; EmptyString; "b"; EmptyString].
Proof. reflexivity. Qed.

Example list_is_not_its_element :
  py_eq (PyList [PyStr "prod"]) (PyStr "prod") = false /\
  py_eq (PyList [PyStr "prod"]) (PyList [PyStr "prod"]) = true /\
  py_eq (PyStr "prod") (PyStr "prod") = true.
Proof. repeat split. Qed.

(** Two records, no filter: the groups "staging" and "prod", one host in
    each, and the three variables of each host. *)
Example parse_two_records :
  parse (sample_env [[db_staging_1; web_prod_2]]) no_filters 2 "latitude.yml" true []
  = ([BaseParse "latitude.yml" true; ReadConfigData "latitude.yml";
      HttpGet (page_request no_filters 1); HttpGet (page_request no_filters 2);
      AddGroup "staging"; AddHost "db-staging-1" (Some "staging");
      SetVariable "db-staging-1" "public_ip_address" (PyStr "10.0.0.1");
      SetVariable "db-staging-1" "server_name" (PyStr "db-staging-1");
      SetVariable "db-staging-1" "group" (PyStr "staging");
      SetCompositeVars [] (host_vars_of "db-staging-1" (PyStr "10.0.0.1")
                             (Some "staging")) "db-staging-1" true;
      AddHostToComposedGroups [] (host_vars_of "db-staging-1" (PyStr "10.0.0.1")
                                    (Some "staging")) "db-staging-1" false;
      AddHostToKeyedGroups [] (host_vars_of "db-staging-1" (PyStr "10.0.0.1")
                                 (Some "staging")) "db-staging-1" false;
      AddGroup "prod"; AddHost "web-prod-2" (Some "prod");
      SetVariable "web-prod-2" "public_ip_address" (PyStr "10.0.0.2");
      SetVariable "web-prod-2" "server_name" (PyStr "web-prod-2");
      SetVariable "web-prod-2" "group" (PyStr "prod");
      SetCompositeVars [] (host_vars_of "web-prod-2" (PyStr "10.0.0.2")
                             (Some "prod")) "web-prod-2" true;
      AddHostToComposedGroups [] (host_vars_of "web-prod-2" (PyStr "10.0.0.2")
                                    (Some "prod")) "web-prod-2" false;
      AddHostToKeyedGroups [] (host_vars_of "web-prod-2" (PyStr "10.0.0.2")
                                 (Some "prod")) "web-prod-2" false],
     Return tt).
Proof. vm_compute. reflexivity. Qed.

Section Classifier.
Context (E : Env) (cfg : Config).

(** Without a second component nothing is registered and the label is
    none, whatever the filters are. *)
Lemma get_hosts_group_no_candidate hostname hist :
  nth_error (str_split "-" hostname) 1 = None ->
  get_hosts_group E cfg hostname hist = ([], Return None).
Proof.
  intros Hc. unfold get_hosts_group. rewrite Hc, bind_ret. simpl.
  destruct (truthy (include_tags cfg) && py_ne (include_tags cfg) PyNone);
    [reflexivity | ].
  destruct (truthy (exclude_tags cfg) && py_eq (exclude_tags cfg) PyNone);
    reflexivity.
Qed.

(** With a second component [g], the group is registered first; the label
    is then none or [g]. *)
Lemma get_hosts_group_candidate hostname g hist :
  nth_error (str_split "-" hostname) 1 = Some g ->
  fst (get_hosts_group E cfg hostname hist) = [AddGroup g] /\
  (snd (get_hosts_group E cfg hostname hist) = Return None \/
   snd (get_hosts_group E cfg hostname hist) = Return (Some g) \/
   exists e, snd (get_hosts_group E cfg hostname hist) = Raise e).
Proof.
  intros Hc. unfold get_hosts_group. rewrite Hc.
  unfold bind, suppress, call, ret.
  destruct (framework E hist (AddGroup g)) as [e | ]; simpl.
  - destruct (is_IndexError e); simpl.
    + destruct (truthy (include_tags cfg) && py_ne (include_tags cfg) (PyStr g));
        simpl; [auto | ].
      destruct (truthy (exclude_tags cfg) && py_eq (exclude_tags cfg) (PyStr g));
        simpl; auto.
    + split; [reflexivity | ]. right; right. exists e; reflexivity.
  - destruct (truthy (include_tags cfg) && py_ne (include_tags cfg) (PyStr g));
      simpl; [auto | ].
    destruct (truthy (exclude_tags cfg) && py_eq (exclude_tags cfg) (PyStr g));
      simpl; auto.
Qed.

(** When the framework accepts the registration, the outcome is decided by
    the two filters. *)
Lemma get_hosts_group_accepted hostname g hist :
  nth_error (str_split "-" hostname) 1 = Some g ->
  framework E hist (AddGroup g) = None ->
  snd (get_hosts_group E cfg hostname hist) =
  Return (if truthy (include_tags cfg) && py_ne (include_tags cfg) (PyStr g)
          then None
          else if truthy (exclude_tags cfg) && py_eq (exclude_tags cfg) (PyStr g)
               then None
               else Some g).
Proof.
  intros Hc Hok. unfold get_hosts_group. rewrite Hc, bind_outcome.
  unfold bind at 1 2, suppress, call, ret. rewrite Hok. simpl.
  destruct (truthy (include_tags cfg) && py_ne (include_tags cfg) (PyStr g));
    [reflexivity | ].
  destruct (truthy (exclude_tags cfg) && py_eq (exclude_tags cfg) (PyStr g));
    reflexivity.
Qed.

(** Whenever the classifier returns, its label is the one the two filters
    decide. *)
Lemma get_hosts_group_returned hostname g hist group :
  nth_error (str_split "-" hostname) 1 = Some g ->
  snd (get_hosts_group E cfg hostname hist) = Return group ->
  group = if truthy (include_tags cfg) && py_ne (include_tags cfg) (PyStr g)
          then None
          else if truthy (exclude_tags cfg) && py_eq (exclude_tags cfg) (PyStr g)
               then None
               else Some g.
Proof.
  intros Hc. unfold get_hosts_group. rewrite Hc, bind_outcome.
  unfold bind at 1 2, suppress, call, ret.
  destruct (framework E hist (AddGroup g)) as [e | ]; simpl.
  - destruct (is_IndexError e); simpl; [ | discriminate].
    destruct (truthy (include_tags cfg) && py_ne (include_tags cfg) (PyStr g));
      [intros [= <-]; reflexivity | ].
    destruct (truthy (exclude_tags cfg) && py_eq (exclude_tags cfg) (PyStr g));
      intros [= <-]; reflexivity.
  - destruct (truthy (include_tags cfg) && py_ne (include_tags cfg) (PyStr g));
      [intros [= <-]; reflexivity | ].
    destruct (truthy (exclude_tags cfg) && py_eq (exclude_tags cfg) (PyStr g));
      intros [= <-]; reflexivity.
Qed.

End Classifier.

(** C1. Once [include_tags] is a non-empty list the classifier returns none
    for every hostname, whatever its group candidate: the whole list is
    compared with the one group string ([include_tags != group]), and a list
    is never equal to a string. This includes [include_tags = ["prod"]]
    with the candidate ["prod"]. The classifier never returns a group; it
    returns none as soon as the registration of the candidate, which comes
    first, returns. *)
Theorem include_list_never_groups
    (E : Env) (cfg : Config) (hostname : string) (hist : list Event)
    (tags : list pyval) :
  tags <> [] ->
  include_tags cfg = PyList tags ->
  (forall group, py_ne (PyList tags) (of_group group) = true) /\
  (forall group,
      snd (get_hosts_group E cfg hostname hist) = Return group -> group = None) /\
  ((forall g, nth_error (str_split "-" hostname) 1 = Some g ->
              framework E hist (AddGroup g) = None) ->
   snd (get_hosts_group E cfg hostname hist) = Return None).
Proof.
  intros Hne Hinc.
  assert (truthy (PyList tags) = true) as Htrue
      by (destruct tags; [congruence | reflexivity]).
  split; [intros [g | ]; reflexivity | ].
  destruct (nth_error (str_split "-" hostname) 1) as [g | ] eqn:Hc.
  - split.
    + intros group Hret.
      rewrite (get_hosts_group_returned E cfg hostname g hist group Hc Hret).
      rewrite Hinc, Htrue. reflexivity.
    + intros Hok.
      rewrite (get_hosts_group_accepted E cfg hostname g hist Hc (Hok g eq_refl)).
      rewrite Hinc, Htrue. reflexivity.
  - rewrite get_hosts_group_no_candidate by assumption. split.
    + intros group [= <-]. reflexivity.
    + reflexivity.
Qed.

Lemma include_list_never_groups_witness :
  nth_error (str_split "-" "web-prod-01") 1 = Some "prod" /\
  snd (get_hosts_group (sample_env [])
         (with_include (PyList [PyStr "prod"]) no_filters) "web-prod-01" [])
  = Return None.
Proof.
  split; [reflexivity | ].
  apply (include_list_never_groups (sample_env [])
           (with_include (PyList [PyStr "prod"]) no_filters)
           "web-prod-01" [] [PyStr "prod"]).
  - discriminate.
  - reflexivity.
  - reflexivity.
Defined.

(** C5. With neither filter set, a hostname of at least two components gets
    its second component (index 1 of the split on "-") as its group,
    unchanged; for "web-prod-01" that is "prod". Whenever the classifier
    returns, that is its label; it returns as soon as the registration of
    the group, which comes first, returns. *)
Theorem unfiltered_group_is_second_component
    (E : Env) (cfg : Config) (hist : list Event) :
  include_tags cfg = PyNone ->
  exclude_tags cfg = PyNone ->
  (forall hostname,
      2 <= length (str_split "-" hostname) ->
      exists g,
        nth_error (str_split "-" hostname) 1 = Some g /\
        (forall group,
            snd (get_hosts_group E cfg hostname hist) = Return group ->
            group = Some g) /\
        (framework E hist (AddGroup g) = None ->
         snd (get_hosts_group E cfg hostname hist) = Return (Some g))) /\
  (framework E hist (AddGroup "prod") = None ->
   snd (get_hosts_group E cfg "web-prod-01" hist) = Return (Some "prod")).
Proof.
  intros Hinc Hexc. split.
  - intros hostname Hlen.
    destruct (second_component _ Hlen) as [g Hc]. exists g.
    split; [exact Hc | ]. split.
    + intros group Hret.
      rewrite (get_hosts_group_returned E cfg hostname g hist group Hc Hret).
      rewrite Hinc, Hexc. reflexivity.
    + intros Hok.
      rewrite (get_hosts_group_accepted E cfg hostname g hist Hc Hok).
      rewrite Hinc, Hexc. reflexivity.
  - intros Hok.
    rewrite (get_hosts_group_accepted E cfg "web-prod-01" "prod" hist eq_refl Hok).
    rewrite Hinc, Hexc. reflexivity.
Qed.

Lemma unfiltered_group_is_second_component_witness :
  snd (get_hosts_group (sample_env []) no_filters "db-staging-1" [])
  = Return (Some "staging") /\
  snd (get_hosts_group (sample_env []) no_filters "web-prod-01" [])
  = Return (Some "prod").
Proof.
  pose proof (unfiltered_group_is_second_component (sample_env []) no_filters []
                eq_refl eq_refl) as [Hall Hprod].
  split.
  - destruct (Hall "db-staging-1") as [g [Hg [_ Hrun]]].
    + vm_compute. lia.
    + vm_compute in Hg. injection Hg as <-. apply Hrun. reflexivity.
  - apply Hprod. reflexivity.
Defined.

(** C10. An [exclude_tags] list never excludes: the test
    [exclude_tags == group] compares the whole list with the one group
    string and is false, for every list (the non-empty ones, which are the
    ones that pass the truth test, included) and every group. So with
    [include_tags] unset the classifier returns the group candidate (none
    when there is no candidate) unchanged, whatever the list holds:
    whenever it returns, that is its label, and it returns as soon as the
    registration of the candidate, which comes first, returns. *)
Theorem exclude_list_never_excludes
    (E : Env) (cfg : Config) (hostname : string) (hist : list Event)
    (tags : list pyval) :
  exclude_tags cfg = PyList tags ->
  include_tags cfg = PyNone ->
  (forall group,
      truthy (PyList tags) && py_eq (PyList tags) (of_group group) = false) /\
  (forall group,
      snd (get_hosts_group E cfg hostname hist) = Return group ->
      group = nth_error (str_split "-" hostname) 1) /\
  ((forall g, nth_error (str_split "-" hostname) 1 = Some g ->
              framework E hist (AddGroup g) = None) ->
   snd (get_hosts_group E cfg hostname hist)
   = Return (nth_error (str_split "-" hostname) 1)).
Proof.
  intros Hexc Hinc. split.
  { intros group. rewrite py_eq_list_group. apply andb_false_r. }
  destruct (nth_error (str_split "-" hostname) 1) as [g | ] eqn:Hc.
  - split.
    + intros group Hret.
      rewrite (get_hosts_group_returned E cfg hostname g hist group Hc Hret).
      rewrite Hinc, Hexc. simpl. rewrite andb_false_r. reflexivity.
    + intros Hok.
      rewrite (get_hosts_group_accepted E cfg hostname g hist Hc (Hok g eq_refl)).
      rewrite Hinc, Hexc. simpl. rewrite andb_false_r. reflexivity.
  - rewrite get_hosts_group_no_candidate by assumption. split.
    + intros group [= <-]. reflexivity.
    + reflexivity.
Qed.

Lemma exclude_list_never_excludes_witness :
  snd (get_hosts_group (sample_env [])
         (with_exclude (PyList [PyStr "prod"]) no_filters) "web-prod-01" [])
  = Return (Some "prod").
Proof.
  apply (exclude_list_never_excludes (sample_env [])
           (with_exclude (PyList [PyStr "prod"]) no_filters)
           "web-prod-01" [] [PyStr "prod"]).
  - reflexivity.
  - reflexivity.
  - reflexivity.
Defined.

(** ** Calls made by the assembler *)

Section Emits.
Context (E : Env) (P : Event -> Prop).

Lemma emits_ret {A} (a : A) : emits P (ret a).
Proof. intros hist. constructor. Qed.

Lemma emits_raise {A} (e : Exn) : emits P (@raise A e).
Proof. intros hist. constructor. Qed.

Lemma emits_bind {A B} (m : M A) (f : A -> M B) :
  emits P m -> (forall a, emits P (f a)) -> emits P (bind m f).
Proof.
  intros Hm Hf hist. rewrite bind_events. apply Forall_app. split.
  - apply Hm.
  - destruct (snd (m hist)); try constructor. apply Hf.
Qed.

Lemma emits_call (ev : Event) : P ev -> emits P (call E ev).
Proof. intros Hev hist. simpl. repeat constructor. exact Hev. Qed.

Lemma emits_suppress caught (m : M unit) :
  emits P m -> emits P (suppress caught m).
Proof.
  intros Hm hist. unfold suppress. specialize (Hm hist).
  destruct (m hist). exact Hm.
Qed.

Lemma emits_for_each {A} (xs : list A) (body : A -> M unit) :
  (forall x, emits P (body x)) -> emits P (for_each xs body).
Proof.
  intros Hbody. induction xs as [ | x xs IH]; simpl.
  - apply emits_ret.
  - apply emits_bind; [apply Hbody | intros _; exact IH].
Qed.

Lemma emits_getitem (d : ServerAttributes) (k : string) : emits P (getitem d k).
Proof. unfold getitem. destruct (d !! k); [apply emits_ret | apply emits_raise]. Qed.

Lemma emits_str_receiver method (v : pyval) : emits P (str_receiver method v).
Proof. destruct v; simpl; first [apply emits_ret | apply emits_raise]. Qed.

Lemma emits_requests_get (req : Request) :
  P (HttpGet req) -> emits P (requests_get E req).
Proof. intros Hev hist. simpl. repeat constructor. exact Hev. Qed.

Lemma emits_raise_for_status (r : Response) : emits P (raise_for_status r).
Proof.
  unfold raise_for_status. destruct (status_error r);
    [apply emits_raise | apply emits_ret].
Qed.

Lemma emits_json (r : Response) : emits P (json r).
Proof.
  unfold json. destruct (json_body r); [apply emits_ret | apply emits_raise].
Qed.

Lemma emits_get_servers_loop cfg fuel page acc :
  (forall req, P (HttpGet req)) ->
  emits P (get_servers_loop E cfg fuel page acc).
Proof.
  intros Hget. revert page acc.
  induction fuel as [ | fuel IH]; intros page acc; simpl.
  - intros hist. constructor.
  - apply emits_bind; [apply emits_requests_get, Hget | intros r].
    apply emits_bind; [apply emits_raise_for_status | intros _].
    apply emits_bind; [apply emits_json | intros b].
    destruct (default [] (data b)); [apply emits_ret | apply IH].
Qed.

Lemma emits_get_hosts_group cfg hostname :
  (forall g, P (AddGroup g)) -> emits P (get_hosts_group E cfg hostname).
Proof.
  intros Hgrp. unfold get_hosts_group. apply emits_bind.
  - destruct (nth_error (str_split "-" hostname) 1); [ | apply emits_ret].
    apply emits_bind; [ | intros _; apply emits_ret].
    apply emits_suppress, emits_call, Hgrp.
  - intros group.
    destruct (truthy (include_tags cfg) && py_ne (include_tags cfg) (of_group group));
      [apply emits_ret | ].
    destruct (truthy (exclude_tags cfg) && py_eq (exclude_tags cfg) (of_group group));
      apply emits_ret.
Qed.

End Emits.

Lemma strict_flags_add_sever (E : Env) (cfg : Config) (server : Server) :
  emits (strict_flag_ok cfg) (add_sever E cfg server).
Proof.
  unfold add_sever.
  apply emits_bind; [destruct (attributes server);
                     [apply emits_ret | apply emits_raise] | intros attrs].
  apply emits_bind; [apply emits_getitem | intros v].
  apply emits_bind; [apply emits_str_receiver | intros hostname].
  apply emits_bind; [apply emits_get_hosts_group; intros; exact I | intros group].
  apply emits_bind; [apply emits_call; exact I | intros _].
  apply emits_bind; [apply emits_getitem | intros ip].
  apply emits_bind; [apply emits_for_each; intros [k v']; apply emits_call; exact I
                    | intros _].
  repeat (apply emits_bind; [apply emits_call; reflexivity | intros _]).
  apply emits_call; reflexivity.
Qed.

Lemma strict_flags_parse (E : Env) (cfg : Config) fuel path cache :
  emits (strict_flag_ok cfg) (parse E cfg fuel path cache).
Proof.
  unfold parse.
  apply emits_bind; [apply emits_call; exact I | intros _].
  apply emits_bind; [apply emits_call; exact I | intros _].
  apply emits_bind; [apply emits_get_servers_loop; intros; exact I | intros servers].
  apply emits_for_each. intros server. apply strict_flags_add_sever.
Qed.

Section Finishes.
Context (E : Env).

Lemma finishes_ret {A} (a : A) : finishes (ret a).
Proof. intros hist; discriminate. Qed.

Lemma finishes_raise {A} (e : Exn) : finishes (@raise A e).
Proof. intros hist; discriminate. Qed.

Lemma finishes_bind {A B} (m : M A) (f : A -> M B) :
  finishes m -> (forall a, finishes (f a)) -> finishes (bind m f).
Proof.
  intros Hm Hf hist. rewrite bind_outcome. specialize (Hm hist).
  destruct (snd (m hist)); [apply Hf | discriminate | congruence].
Qed.

Lemma finishes_call (ev : Event) : finishes (call E ev).
Proof. intros hist. simpl. destruct (framework E hist ev); discriminate. Qed.

Lemma finishes_suppress caught (m : M unit) :
  finishes m -> finishes (suppress caught m).
Proof.
  intros Hm hist. unfold suppress. specialize (Hm hist).
  destruct (m hist) as [evs [[] | e | ]]; simpl in *;
    [discriminate | destruct (caught e); discriminate | congruence].
Qed.

Lemma finishes_for_each {A} (xs : list A) (body : A -> M unit) :
  (forall x, finishes (body x)) -> finishes (for_each xs body).
Proof.
  intros Hbody. induction xs as [ | x xs IH]; simpl.
  - apply finishes_ret.
  - apply finishes_bind; [apply Hbody | intros _; exact IH].
Qed.

Lemma finishes_getitem (d : ServerAttributes) (k : string) : finishes (getitem d k).
Proof.
  unfold getitem. destruct (d !! k); [apply finishes_ret | apply finishes_raise].
Qed.

Lemma finishes_str_receiver method (v : pyval) : finishes (str_receiver method v).
Proof. destruct v; simpl; first [apply finishes_ret | apply finishes_raise]. Qed.

Lemma finishes_get_hosts_group cfg hostname :
  finishes (get_hosts_group E cfg hostname).
Proof.
  unfold get_hosts_group. apply finishes_bind.
  - destruct (nth_error (str_split "-" hostname) 1); [ | apply finishes_ret].
    apply finishes_bind; [ | intros _; apply finishes_ret].
    apply finishes_suppress, finishes_call.
  - intros group.
    destruct (truthy (include_tags cfg) && py_ne (include_tags cfg) (of_group group));
      [apply finishes_ret | ].
    destruct (truthy (exclude_tags cfg) && py_eq (exclude_tags cfg) (of_group group));
      apply finishes_ret.
Qed.

Lemma finishes_add_sever cfg server : finishes (add_sever E cfg server).
Proof.
  unfold add_sever.
  apply finishes_bind; [destruct (attributes server);
                        [apply finishes_ret | apply finishes_raise] | intros attrs].
  apply finishes_bind; [apply finishes_getitem | intros v].
  apply finishes_bind; [apply finishes_str_receiver | intros hostname].
  apply finishes_bind; [apply finishes_get_hosts_group | intros group].
  apply finishes_bind; [apply finishes_call | intros _].
  apply finishes_bind; [apply finishes_getitem | intros ip].
  apply finishes_bind; [apply finishes_for_each; intros [k v']; apply finishes_call
                       | intros _].
  repeat (apply finishes_bind; [apply finishes_call | intros _]).
  apply finishes_call.
Qed.

End Finishes.

Lemma outcome_cases {A} (o : Outcome A) :
  o <> OutOfFuel -> (exists a, o = Return a) \/ (exists e, o = Raise e).
Proof. destruct o; intros H; [left | right | congruence]; eexists; reflexivity. Qed.

Section Assembler.
Context (E : Env) (cfg : Config).

(** A record without [hostname] fails before any call is made. *)
Lemma add_sever_no_hostname server attrs hist :
  attributes server = Some attrs ->
  attrs !! "hostname" = None ->
  add_sever E cfg server hist = ([], Raise (KeyError "hostname")).
Proof.
  intros Ha Hh. unfold add_sever. rewrite Ha, bind_ret.
  unfold getitem. rewrite Hh. reflexivity.
Qed.

(** A record that is processed to the end: the calls made for it. *)
Lemma add_sever_returned server hist :
  snd (add_sever E cfg server hist) = Return tt ->
  exists attrs hostname ip group,
    attributes server = Some attrs /\
    attrs !! "hostname" = Some (PyStr hostname) /\
    attrs !! "primary_ipv4" = Some ip /\
    snd (get_hosts_group E cfg hostname hist) = Return group /\
    fst (add_sever E cfg server hist) =
    fst (get_hosts_group E cfg hostname hist) ++
    [AddHost hostname group;
     SetVariable hostname "public_ip_address" ip;
     SetVariable hostname "server_name" (PyStr hostname);
     SetVariable hostname "group" (of_group group);
     SetCompositeVars (compose cfg) (host_vars_of hostname ip group)
       hostname true;
     AddHostToComposedGroups (groups cfg) (host_vars_of hostname ip group)
       hostname (strict cfg);
     AddHostToKeyedGroups (keyed_groups cfg) (host_vars_of hostname ip group)
       hostname (strict cfg)].
Proof.
  destruct (add_sever E cfg server hist) as [evs out] eqn:Hrun. simpl.
  intros ->. unfold add_sever in Hrun.
  destruct (attributes server) as [attrs | ]; [ | discriminate].
  rewrite bind_ret in Hrun. unfold getitem in Hrun.
  destruct (attrs !! "hostname") as [[ | | hostname | ] | ] eqn:Hh;
    try discriminate.
  rewrite bind_ret in Hrun. simpl str_receiver in Hrun. rewrite bind_ret in Hrun.
  unfold bind at 1 in Hrun.
  destruct (get_hosts_group E cfg hostname hist) as [cls [group | e | ]] eqn:Hg;
    try discriminate.
  destruct (attrs !! "primary_ipv4") as [ip | ] eqn:Hip.
  2:{ unfold bind, call, raise in Hrun.
      destruct (framework E (hist ++ cls) (AddHost hostname group));
        discriminate. }
  exists attrs, hostname, ip, group. rewrite Hg.
  repeat split; try reflexivity; try assumption.
  simpl fst. simpl in Hrun. unfold bind, call, ret in Hrun. simpl in Hrun.
  repeat match type of Hrun with
         | context [framework E ?h ?ev] =>
             destruct (framework E h ev); simpl in Hrun; try discriminate
         end.
  injection Hrun as <-. reflexivity.
Qed.

(** The calls made for a record once its host is registered register
    nothing more. *)
Lemma after_add_host_registers_nothing (attrs : ServerAttributes) hostname group :
  emits registers_nothing
    (public_ip_address <- getitem attrs "primary_ipv4" ;;
     let host_vars := dict_set [] "public_ip_address" public_ip_address in
     let host_vars := dict_set host_vars "server_name" (PyStr hostname) in
     let host_vars := dict_set host_vars "group" (of_group group) in
     for_each host_vars
       (fun '(var_name, var_value) =>
          call E (SetVariable hostname var_name var_value)) ;;
     let strict := strict cfg in
     call E (SetCompositeVars (compose cfg) host_vars hostname true) ;;
     call E (AddHostToComposedGroups (groups cfg) host_vars hostname strict) ;;
     call E (AddHostToKeyedGroups (keyed_groups cfg) host_vars hostname strict)).
Proof.
  apply emits_bind; [apply emits_getitem | intros ip].
  apply emits_bind; [apply emits_for_each; intros [k v']; apply emits_call; exact I
                    | intros _].
  repeat (apply emits_bind; [apply emits_call; exact I | intros _]).
  apply emits_call; exact I.
Qed.

(** A record with a hostname: the classifier runs first; when it returns
    a label the host is registered under it, and nothing else is. *)
Lemma add_sever_hostname server attrs hostname hist :
  attributes server = Some attrs ->
  attrs !! "hostname" = Some (PyStr hostname) ->
  exists tail,
    Forall registers_nothing tail /\
    fst (add_sever E cfg server hist) =
    fst (get_hosts_group E cfg hostname hist) ++
    match snd (get_hosts_group E cfg hostname hist) with
    | Return group => AddHost hostname group :: tail
    | _ => []
    end.
Proof.
  intros Ha Hh. unfold add_sever. rewrite Ha, bind_ret.
  unfold getitem at 1. rewrite Hh, bind_ret. simpl str_receiver.
  rewrite bind_ret, bind_events.
  destruct (snd (get_hosts_group E cfg hostname hist)) as [group | e | ].
  - rewrite bind_events. simpl fst at 2.
    eexists. split; [ | reflexivity].
    destruct (snd (call E (AddHost hostname group) _)); try constructor.
    apply after_add_host_registers_nothing.
  - exists []. split; [constructor | reflexivity].
  - exists []. split; [constructor | reflexivity].
Qed.

(** A record with a hostname and a [primary_ipv4], whatever its value, is
    processed to the end when the framework accepts every call. *)
Lemma add_sever_accepted server attrs hostname ip hist :
  (forall h ev, framework E h ev = None) ->
  attributes server = Some attrs ->
  attrs !! "hostname" = Some (PyStr hostname) ->
  attrs !! "primary_ipv4" = Some ip ->
  snd (add_sever E cfg server hist) = Return tt.
Proof.
  intros Hok Ha Hh Hip. unfold add_sever. rewrite Ha, bind_ret.
  unfold getitem. rewrite Hh, bind_ret. simpl str_receiver.
  rewrite bind_ret, bind_outcome.
  assert (exists group, snd (get_hosts_group E cfg hostname hist) = Return group)
    as [group Hg].
  { destruct (nth_error (str_split "-" hostname) 1) as [g | ] eqn:Hc.
    - rewrite (get_hosts_group_accepted E cfg hostname g hist Hc (Hok _ _)).
      eexists; reflexivity.
    - rewrite (get_hosts_group_no_candidate E cfg hostname hist Hc).
      eexists; reflexivity. }
  rewrite Hg, Hip. simpl. unfold bind, call, ret. simpl.
  rewrite !Hok. reflexivity.
Qed.

End Assembler.

(** C6. A hostname with fewer than two "-"-separated parts has no group:
    the classifier returns none, without raising and without registering
    anything, whatever the filters are; the host is still registered, by
    [add_host] with no group (for instance "server1"). *)
Theorem short_hostname_is_ungrouped
    (E : Env) (cfg : Config) (server : Server) (attrs : ServerAttributes)
    (hostname : string) (hist : list Event) :
  attributes server = Some attrs ->
  attrs !! "hostname" = Some (PyStr hostname) ->
  length (str_split "-" hostname) < 2 ->
  get_hosts_group E cfg hostname hist = ([], Return None) /\
  exists tail,
    fst (add_sever E cfg server hist) = AddHost hostname None :: tail /\
    Forall registers_nothing tail.
Proof.
  intros Ha Hh Hlen.
  pose proof (get_hosts_group_no_candidate E cfg hostname hist
                (no_second_component _ Hlen)) as Hg.
  split; [exact Hg | ].
  destruct (add_sever_hostname E cfg server attrs hostname hist Ha Hh)
    as [tail [Htail Hevs]].
  rewrite Hg in Hevs. simpl in Hevs. exists tail. split; assumption.
Qed.

Lemma short_hostname_is_ungrouped_witness :
  length (str_split "-" "server1") < 2 /\
  get_hosts_group (sample_env []) no_filters "server1" [] = ([], Return None) /\
  exists tail,
    fst (add_sever (sample_env []) no_filters server1 []) =
    AddHost "server1" None :: tail /\
    Forall registers_nothing tail.
Proof.
  split; [vm_compute; lia | ].
  apply (short_hostname_is_ungrouped (sample_env []) no_filters server1
           (list_to_map [("hostname", PyStr "server1");
                         ("primary_ipv4", PyStr "10.0.0.3")])
           "server1" []).
  - reflexivity.
  - vm_compute. reflexivity.
  - vm_compute. lia.
Defined.

(** C3, as stated, fails: the record [no_ip] has a hostname and no
    [primary_ipv4], and mapping it raises [KeyError]. *)
Lemma missing_primary_ipv4_is_fatal :
  hostname_of no_ip = Some "web-prod-01" /\
  (exists attrs, attributes no_ip = Some attrs /\ attrs !! "primary_ipv4" = None) /\
  add_sever (sample_env []) no_filters no_ip [] =
  ([AddGroup "prod"; AddHost "web-prod-01" (Some "prod")],
   Raise (KeyError "primary_ipv4")).
Proof.
  split; [vm_compute; reflexivity | ]. split.
  - eexists. split; [reflexivity | vm_compute; reflexivity].
  - vm_compute. reflexivity.
Qed.

(** C3, amended. A record whose attributes hold a hostname but lack the
    [primary_ipv4] key is not tolerated: mapping it always raises. When the
    classifier and [add_host] return, the error is the [KeyError] of the
    lookup of [primary_ipv4], raised once the host is registered and before
    any of its variables is set. What is tolerated is a [primary_ipv4] that
    is present and null: when the framework accepts every call, such a
    record is mapped to the end, with [public_ip_address] set to [None]. *)
Theorem missing_primary_ipv4_raises
    (E : Env) (cfg : Config) (server : Server) (attrs : ServerAttributes)
    (hostname : string) (hist : list Event) :
  attributes server = Some attrs ->
  attrs !! "hostname" = Some (PyStr hostname) ->
  (attrs !! "primary_ipv4" = None ->
   (exists e, snd (add_sever E cfg server hist) = Raise e) /\
   (forall cls group,
       get_hosts_group E cfg hostname hist = (cls, Return group) ->
       framework E (hist ++ cls) (AddHost hostname group) = None ->
       add_sever E cfg server hist =
       (cls ++ [AddHost hostname group], Raise (KeyError "primary_ipv4")))) /\
  (attrs !! "primary_ipv4" = Some PyNone ->
   (forall h ev, framework E h ev = None) ->
   snd (add_sever E cfg server hist) = Return tt /\
   In (SetVariable hostname "public_ip_address" PyNone)
      (fst (add_sever E cfg server hist))).
Proof.
  intros Ha Hh. split.
  - intros Hip. split.
    + destruct (outcome_cases _ (finishes_add_sever E cfg server hist))
        as [[[] Hret] | Hraise]; [ | exact Hraise].
      destruct (add_sever_returned E cfg server hist Hret)
        as (attrs' & h & ip & g & Ha' & _ & Hip' & _).
      congruence.
    + intros cls group Hg Hok. unfold add_sever. rewrite Ha, bind_ret.
      unfold getitem. rewrite Hh, bind_ret. simpl str_receiver.
      rewrite bind_ret. unfold bind at 1. rewrite Hg, Hip.
      unfold bind, call, raise. rewrite Hok. reflexivity.
  - intros Hip Hok.
    pose proof (add_sever_accepted E cfg server attrs hostname PyNone hist
                  Hok Ha Hh Hip) as Hret.
    split; [exact Hret | ].
    destruct (add_sever_returned E cfg server hist Hret)
      as (attrs' & h & ip & g & Ha' & Hh' & Hip' & _ & Hevs).
    assert (attrs' = attrs) as -> by congruence.
    assert (h = hostname) as -> by congruence.
    assert (ip = PyNone) as -> by congruence.
    rewrite Hevs. apply in_or_app. right. right. left. reflexivity.
Qed.

Lemma missing_primary_ipv4_raises_witness :
  (exists e, snd (add_sever (sample_env []) no_filters no_ip []) = Raise e) /\
  snd (add_sever (sample_env []) no_filters null_ip []) = Return tt.
Proof.
  split.
  - apply (missing_primary_ipv4_raises (sample_env []) no_filters no_ip
             (list_to_map [("hostname", PyStr "web-prod-01")])
             "web-prod-01" []).
    + reflexivity.
    + vm_compute. reflexivity.
    + vm_compute. reflexivity.
  - apply (missing_primary_ipv4_raises (sample_env []) no_filters null_ip
             (list_to_map [("hostname", PyStr "web-prod-03");
                           ("primary_ipv4", PyNone)])
             "web-prod-03" []).
    + reflexivity.
    + vm_compute. reflexivity.
    + vm_compute. reflexivity.
    + reflexivity.
Defined.

(** C8. Whatever the configured [strict] option is, every call of the
    composite-variable evaluator carries [strict=True], and every call of
    the composed-group builder and of the keyed-group builder carries the
    configured option; a record processed to the end gets exactly these
    three delegations, in this order, after the calls on the inventory. *)
Theorem delegations_strict_flags (E : Env) (cfg : Config) :
  (forall server hist,
      Forall (strict_flag_ok cfg) (fst (add_sever E cfg server hist))) /\
  (forall server hist,
      snd (add_sever E cfg server hist) = Return tt ->
      exists hostname vars calls,
        Forall inventory_call calls /\
        fst (add_sever E cfg server hist) =
        calls ++
        [SetCompositeVars (compose cfg) vars hostname true;
         AddHostToComposedGroups (groups cfg) vars hostname (strict cfg);
         AddHostToKeyedGroups (keyed_groups cfg) vars hostname (strict cfg)]) /\
  (forall fuel path cache hist,
      Forall (strict_flag_ok cfg) (fst (parse E cfg fuel path cache hist))).
Proof.
  split; [ | split].
  - intros server hist. apply strict_flags_add_sever.
  - intros server hist Hret.
    destruct (add_sever_returned E cfg server hist Hret)
      as (attrs & hostname & ip & group & _ & _ & _ & _ & Hevs).
    exists hostname, (host_vars_of hostname ip group).
    exists (fst (get_hosts_group E cfg hostname hist) ++
            [AddHost hostname group;
             SetVariable hostname "public_ip_address" ip;
             SetVariable hostname "server_name" (PyStr hostname);
             SetVariable hostname "group" (of_group group)]).
    split.
    + apply Forall_app. split.
      * apply emits_get_hosts_group. intros g; exact I.
      * repeat constructor.
    + rewrite Hevs, <- app_assoc. reflexivity.
  - intros fuel path cache hist. apply strict_flags_parse.
Qed.

Lemma delegations_strict_flags_witness :
  exists hostname vars calls,
    Forall inventory_call calls /\
    fst (add_sever (sample_env []) no_filters web_prod_2 []) =
    calls ++
    [SetCompositeVars [] vars hostname true;
     AddHostToComposedGroups [] vars hostname false;
     AddHostToKeyedGroups [] vars hostname false].
Proof.
  apply (proj1 (proj2 (delegations_strict_flags (sample_env []) no_filters))
           web_prod_2 []).
  vm_compute. reflexivity.
Defined.

(** ** The fetcher *)

Section Fetcher.
Context (E : Env) (cfg : Config).

(** One pass of the loop. *)
Lemma get_servers_loop_step fuel page acc hist :
  get_servers_loop E cfg (S fuel) page acc hist =
  match http E (page_request cfg page) with
  | inl e => ([HttpGet (page_request cfg page)], Raise e)
  | inr r =>
      if status_error r
      then ([HttpGet (page_request cfg page)], Raise HTTPError)
      else match json_body r with
           | None => ([HttpGet (page_request cfg page)], Raise JSONDecodeError)
           | Some body =>
               match default [] (data body) with
               | [] => ([HttpGet (page_request cfg page)], Return acc)
               | s :: servers =>
                   (HttpGet (page_request cfg page)
                      :: fst (get_servers_loop E cfg fuel (page + 1)
                                (acc ++ s :: servers)
                                (hist ++ [HttpGet (page_request cfg page)])),
                    snd (get_servers_loop E cfg fuel (page + 1)
                           (acc ++ s :: servers)
                           (hist ++ [HttpGet (page_request cfg page)])))
               end
           end
  end.
Proof.
  simpl. unfold bind at 1, requests_get.
  destruct (http E (page_request cfg page)) as [e | r]; [reflexivity | ].
  unfold bind at 1, raise_for_status.
  destruct (status_error r); [reflexivity | ].
  unfold ret at 1. rewrite !app_nil_r. unfold bind, json.
  destruct (json_body r) as [body | ]; [ | reflexivity].
  unfold ret at 1. rewrite !app_nil_r.
  destruct (default [] (data body)) as [ | s servers]; [reflexivity | ].
  destruct (get_servers_loop E cfg fuel (page + 1) (acc ++ s :: servers)
              (hist ++ [HttpGet (page_request cfg page)])).
  reflexivity.
Qed.

(** What the API answers does not depend on the calls made before. *)
Lemma get_servers_loop_hist fuel page acc h1 h2 :
  get_servers_loop E cfg fuel page acc h1 = get_servers_loop E cfg fuel page acc h2.
Proof.
  revert page acc h1 h2.
  induction fuel as [ | fuel IH]; intros page acc h1 h2; [reflexivity | ].
  rewrite !get_servers_loop_step.
  destruct (http E (page_request cfg page)) as [e | r]; [reflexivity | ].
  destruct (status_error r); [reflexivity | ].
  destruct (json_body r) as [body | ]; [ | reflexivity].
  destruct (default [] (data body)) as [ | s servers]; [reflexivity | ].
  rewrite (IH _ _ (h1 ++ [HttpGet (page_request cfg page)])
                  (h2 ++ [HttpGet (page_request cfg page)])).
  reflexivity.
Qed.

(** What a response that carries [page] does to one pass. *)
Lemma page_of_Some r page :
  page_of r = Some page ->
  status_error r = false /\
  exists body, json_body r = Some body /\ default [] (data body) = page.
Proof.
  unfold page_of. destruct (status_error r); [discriminate | ].
  destruct (json_body r) as [body | ]; [ | discriminate].
  intros [= <-]. split; [reflexivity | ]. exists body. split; reflexivity.
Qed.

(** The loop, started at page [q], over an API that answers the pages
    from [q] on with [pages] and then an empty page. *)
Lemma get_servers_loop_pages (pages : list (list Server)) :
  forall fuel (q : nat) acc hist,
    Forall (fun p => p <> []) pages ->
    (forall i p, nth_error (pages ++ [[]]) i = Some p ->
                 exists r, http E (page_request cfg (Z.of_nat (q + i))) = inr r /\
                           page_of r = Some p) ->
    length pages < fuel ->
    get_servers_loop E cfg fuel (Z.of_nat q) acc hist =
    (map (fun k => HttpGet (page_request cfg (Z.of_nat k)))
         (seq q (S (length pages))),
     Return (acc ++ concat pages)).
Proof.
  induction pages as [ | p pages IH]; intros fuel q acc hist Hne Hapi Hfuel.
  - destruct fuel as [ | fuel]; [simpl in Hfuel; lia | ].
    rewrite get_servers_loop_step.
    destruct (Hapi 0 [] eq_refl) as [r [Hr Hp]].
    rewrite Nat.add_0_r in Hr. rewrite Hr.
    destruct (page_of_Some r [] Hp) as [Hs [body [Hb Hd]]].
    rewrite Hs, Hb, Hd. simpl. rewrite app_nil_r. reflexivity.
  - destruct fuel as [ | fuel]; [simpl in Hfuel; lia | ].
    rewrite get_servers_loop_step.
    destruct (Hapi 0 p eq_refl) as [r [Hr Hp]].
    rewrite Nat.add_0_r in Hr. rewrite Hr.
    destruct (page_of_Some r p Hp) as [Hs [body [Hb Hd]]].
    rewrite Hs, Hb, Hd.
    pose proof (Forall_inv Hne) as Hp_ne.
    pose proof (Forall_inv_tail Hne) as Hrest.
    destruct p as [ | s servers]; [congruence | ].
    replace (Z.of_nat q + 1)%Z with (Z.of_nat (S q)) by lia.
    rewrite (IH fuel (S q) (acc ++ s :: servers)
               (hist ++ [HttpGet (page_request cfg (Z.of_nat q))]) Hrest).
    + simpl. rewrite <- app_assoc. reflexivity.
    + intros i p' Hi. specialize (Hapi (S i) p' Hi).
      replace (S q + i) with (q + S i) by lia. exact Hapi.
    + simpl in Hfuel. lia.
Qed.

(** The loop returns only when the API answered some non-empty pages and
    then an empty one. *)
Lemma get_servers_loop_returned fuel :
  forall (q : nat) acc hist servers,
    snd (get_servers_loop E cfg fuel (Z.of_nat q) acc hist) = Return servers ->
    exists pages,
      length pages < fuel /\
      Forall (fun p => p <> []) pages /\
      (forall i p, nth_error (pages ++ [[]]) i = Some p ->
                   exists r, http E (page_request cfg (Z.of_nat (q + i))) = inr r /\
                             page_of r = Some p) /\
      servers = acc ++ concat pages.
Proof.
  induction fuel as [ | fuel IH]; intros q acc hist servers; [discriminate | ].
  rewrite get_servers_loop_step.
  destruct (http E (page_request cfg (Z.of_nat q))) as [e | r] eqn:Hr;
    [discriminate | ].
  destruct (status_error r) eqn:Hs; [discriminate | ].
  destruct (json_body r) as [body | ] eqn:Hb; [ | discriminate].
  destruct (default [] (data body)) as [ | s page] eqn:Hd; simpl.
  - intros [= <-]. exists []. simpl. repeat split; try lia.
    + constructor.
    + intros [ | i] p Hi; [ | destruct i; discriminate].
      injection Hi as <-. exists r. rewrite Nat.add_0_r. split; [exact Hr | ].
      unfold page_of. rewrite Hs, Hb, Hd. reflexivity.
    + symmetry; apply app_nil_r.
  - replace (Z.of_nat q + 1)%Z with (Z.of_nat (S q)) by lia.
    intros Hret. destruct (IH _ _ _ _ Hret) as (pages & Hlen & Hne & Hapi & ->).
    exists ((s :: page) :: pages). simpl. repeat split; try lia.
    + constructor; [discriminate | exact Hne].
    + intros [ | i] p Hi.
      * injection Hi as <-. exists r. rewrite Nat.add_0_r. split; [exact Hr | ].
        unfold page_of. rewrite Hs, Hb, Hd. reflexivity.
      * replace (q + S i) with (S q + i) by lia. apply Hapi. exact Hi.
    + rewrite <- app_assoc. reflexivity.
Qed.

(** A request answered with an error status ends the loop: it is the last
    call, and the loop raises. *)
Lemma get_servers_loop_status_error fuel :
  forall page acc hist req r,
    In (HttpGet req) (fst (get_servers_loop E cfg fuel page acc hist)) ->
    http E req = inr r ->
    status_error r = true ->
    snd (get_servers_loop E cfg fuel page acc hist) = Raise HTTPError /\
    exists earlier,
      fst (get_servers_loop E cfg fuel page acc hist) = earlier ++ [HttpGet req].
Proof.
  induction fuel as [ | fuel IH]; intros page acc hist req r Hin Hreq Hbad;
    [destruct Hin | ].
  rewrite get_servers_loop_step in *.
  destruct (http E (page_request cfg page)) as [e | r'] eqn:Hr.
  { destruct Hin as [[= <-] | []]. congruence. }
  destruct (status_error r') eqn:Hs.
  { destruct Hin as [[= <-] | []]. split; [reflexivity | ]. exists []. reflexivity. }
  destruct (json_body r') as [body | ].
  2:{ destruct Hin as [[= <-] | []]. congruence. }
  destruct (default [] (data body)) as [ | s page'].
  { destruct Hin as [[= <-] | []]. congruence. }
  simpl in Hin. destruct Hin as [[= <-] | Hin]; [congruence | ].
  destruct (IH _ _ _ _ _ Hin Hreq Hbad) as [Hout [earlier Hevs]].
  simpl. split; [exact Hout | ].
  exists (HttpGet (page_request cfg page) :: earlier). rewrite Hevs. reflexivity.
Qed.

End Fetcher.

(** An API that never answers with an empty page keeps the loop going: the
    fuel always runs out. *)
Lemma get_servers_never_empty (E : Env) (cfg : Config) :
  (forall page, exists r s servers,
      http E (page_request cfg page) = inr r /\ page_of r = Some (s :: servers)) ->
  forall fuel hist, snd (get_servers E cfg fuel hist) = OutOfFuel.
Proof.
  intros Hapi fuel. unfold get_servers. generalize 1%Z, (@nil Server).
  induction fuel as [ | fuel IH]; intros page acc hist; [reflexivity | ].
  rewrite get_servers_loop_step.
  destruct (Hapi page) as (r & s & servers & Hr & Hp). rewrite Hr.
  destruct (page_of_Some r _ Hp) as [Hs [body [Hb Hd]]].
  rewrite Hs, Hb, Hd. simpl. apply IH.
Qed.

(** C2. When the API answers [n] non-empty pages and then one empty page,
    [get_servers] returns the records of the [n] pages, concatenated in
    order, after exactly [n + 1] GET requests, for the pages 1, 2, ...,
    [n + 1] in this order. And the loop ends normally only on an empty
    page: whenever [get_servers] returns, the API has answered some
    non-empty pages followed by an empty one, and these are what it
    returns. *)
Theorem get_servers_concatenates_pages
    (E : Env) (cfg : Config) (pages : list (list Server)) (fuel : nat)
    (hist : list Event) :
  Forall (fun p => p <> []) pages ->
  serves E cfg (pages ++ [[]]) ->
  length pages < fuel ->
  get_servers E cfg fuel hist =
  (map (fun k => HttpGet (page_request cfg (Z.of_nat k)))
       (seq 1 (S (length pages))),
   Return (concat pages)) /\
  (forall fuel' hist' servers,
      snd (get_servers E cfg fuel' hist') = Return servers ->
      exists pages',
        length pages' < fuel' /\
        Forall (fun p => p <> []) pages' /\
        serves E cfg (pages' ++ [[]]) /\
        servers = concat pages').
Proof.
  intros Hne Hapi Hfuel. split.
  - apply (get_servers_loop_pages E cfg pages fuel 1 [] hist Hne Hapi Hfuel).
  - intros fuel' hist' servers Hret.
    destruct (get_servers_loop_returned E cfg fuel' 1 [] hist' servers Hret)
      as (pages' & Hlen & Hne' & Hapi' & Hs).
    exists pages'. repeat split; assumption.
Qed.

Lemma get_servers_concatenates_pages_witness :
  get_servers (sample_env [[db_staging_1; web_prod_2]; [server1]]) no_filters 3 [] =
  ([HttpGet (page_request no_filters 1);
    HttpGet (page_request no_filters 2);
    HttpGet (page_request no_filters 3)],
   Return [db_staging_1; web_prod_2; server1]).
Proof.
  apply (get_servers_concatenates_pages
           (sample_env [[db_staging_1; web_prod_2]; [server1]]) no_filters
           [[db_staging_1; web_prod_2]; [server1]] 3 []).
  - repeat constructor; discriminate.
  - intros [ | [ | [ | i]]] p Hi; simpl in Hi.
    + injection Hi as <-. eexists. split; reflexivity.
    + injection Hi as <-. eexists. split; reflexivity.
    + injection Hi as <-. eexists. split; reflexivity.
    + destruct i; discriminate.
  - simpl. lia.
Defined.

(** ** The parse *)

Section Parse.
Context (E : Env) (cfg : Config).

(** Either the framework stops [parse] before the fetch, or [parse] is the
    fetch followed by the loop over the fetched records. *)
Lemma parse_cases fuel path cache hist :
  (Forall setup_call (fst (parse E cfg fuel path cache hist)) /\
   exists e, snd (parse E cfg fuel path cache hist) = Raise e) \/
  exists h,
    fst (parse E cfg fuel path cache hist) =
    [BaseParse path cache; ReadConfigData path] ++
    fst (get_servers E cfg fuel h) ++
    match snd (get_servers E cfg fuel h) with
    | Return servers =>
        fst (for_each servers (add_sever E cfg) (h ++ fst (get_servers E cfg fuel h)))
    | _ => []
    end /\
    snd (parse E cfg fuel path cache hist) =
    match snd (get_servers E cfg fuel h) with
    | Return servers =>
        snd (for_each servers (add_sever E cfg) (h ++ fst (get_servers E cfg fuel h)))
    | Raise e => Raise e
    | OutOfFuel => OutOfFuel
    end.
Proof.
  unfold parse. rewrite !bind_events, !bind_outcome. simpl call.
  simpl fst. simpl snd.
  destruct (framework E hist (BaseParse path cache)) as [e | ].
  { left. split; [repeat constructor | exists e; reflexivity]. }
  destruct (framework E (hist ++ [BaseParse path cache]) (ReadConfigData path))
    as [e | ].
  { left. split; [repeat constructor | exists e; reflexivity]. }
  right. exists ((hist ++ [BaseParse path cache]) ++ [ReadConfigData path]).
  split; reflexivity.
Qed.

End Parse.

(** ** Hosts and groups registered by a run *)

Lemma added_hosts_app (a b : list Event) :
  added_hosts (a ++ b) = added_hosts a ++ added_hosts b.
Proof. apply omap_app. Qed.

Lemma added_hosts_none (evs : list Event) :
  Forall adds_no_host evs -> added_hosts evs = [].
Proof.
  induction 1 as [ | ev evs Hev _ IH]; [reflexivity | ].
  destruct ev; simpl in *; try exact IH. destruct Hev.
Qed.

Lemma registers_nothing_no_host (evs : list Event) :
  Forall registers_nothing evs -> Forall adds_no_host evs.
Proof.
  intros Hall. induction Hall as [ | ev evs Hev _ IH]; constructor; [ | exact IH].
  destruct ev; simpl in *; auto.
Qed.

Lemma setup_no_host (evs : list Event) :
  Forall setup_call evs -> Forall adds_no_host evs.
Proof.
  intros Hall. induction Hall as [ | ev evs Hev _ IH]; constructor; [ | exact IH].
  destruct ev; simpl in *; auto.
Qed.

Lemma registered_no_host (evs : list Event) :
  Forall adds_no_host evs -> registered_before evs.
Proof.
  intros Hall pre host g post ->.
  apply Forall_app in Hall as [_ Hall]. apply Forall_inv in Hall. destruct Hall.
Qed.

Lemma registered_before_app (a b : list Event) :
  registered_before a -> registered_before b -> registered_before (a ++ b).
Proof.
  intros Ha Hb pre host g post Heq.
  apply app_eq_app in Heq as [l [[-> Heq] | [-> Heq]]].
  - destruct l as [ | ev l]; simpl in Heq.
    + destruct (Hb [] host g post (eq_sym Heq)).
    + injection Heq as <- ->. apply (Ha pre host g l eq_refl).
  - apply in_or_app. right. apply (Hb l host g post Heq).
Qed.

(** In a sequence with one registration of a host, that registration is
    the only place a host can be found at. *)
Lemma only_host (a b pre post : list Event) host group host' group' :
  Forall adds_no_host a ->
  Forall adds_no_host b ->
  a ++ AddHost host group :: b = pre ++ AddHost host' group' :: post ->
  pre = a /\ host' = host /\ group' = group.
Proof.
  intros Ha Hb. revert pre.
  induction Ha as [ | ev a Hev Ha IH]; intros pre Heq; simpl in Heq.
  - destruct pre as [ | ev pre]; simpl in Heq.
    + injection Heq as -> ->. auto.
    + injection Heq as <- ->.
      apply Forall_app in Hb as [_ Hb]. apply Forall_inv in Hb. destruct Hb.
  - destruct pre as [ | ev' pre]; simpl in Heq.
    + injection Heq as -> _. destruct Hev.
    + injection Heq as <- Heq. destruct (IH pre Heq) as (-> & -> & ->). auto.
Qed.

Section Registration.
Context (E : Env) (cfg : Config).

Lemma get_hosts_group_no_host hostname hist :
  Forall adds_no_host (fst (get_hosts_group E cfg hostname hist)).
Proof. apply emits_get_hosts_group. intros g; exact I. Qed.

(** A label the classifier returns is a group it has just registered. *)
Lemma get_hosts_group_label hostname hist g :
  snd (get_hosts_group E cfg hostname hist) = Return (Some g) ->
  fst (get_hosts_group E cfg hostname hist) = [AddGroup g].
Proof.
  intros Hret. destruct (nth_error (str_split "-" hostname) 1) as [g0 | ] eqn:Hc.
  - destruct (get_hosts_group_candidate E cfg hostname g0 hist Hc)
      as [Hevs [Hout | [Hout | [e Hout]]]]; rewrite Hout in Hret;
      try discriminate.
    injection Hret as ->. exact Hevs.
  - rewrite (get_hosts_group_no_candidate E cfg hostname hist Hc) in Hret.
    discriminate.
Qed.

(** A record that has no hostname to be registered under fails before any
    call is made. *)
Lemma add_sever_no_identity server hist :
  hostname_of server = None ->
  exists e, add_sever E cfg server hist = ([], Raise e).
Proof.
  unfold hostname_of, add_sever. intros Hn.
  destruct (attributes server) as [attrs | ]; [ | eexists; reflexivity].
  rewrite bind_ret. unfold getitem.
  destruct (attrs !! "hostname") as [[ | | hostname | ] | ];
    try discriminate; eexists; reflexivity.
Qed.

Lemma add_sever_classifier_raises server attrs hostname hist e :
  attributes server = Some attrs ->
  attrs !! "hostname" = Some (PyStr hostname) ->
  snd (get_hosts_group E cfg hostname hist) = Raise e ->
  snd (add_sever E cfg server hist) = Raise e.
Proof.
  intros Ha Hh Hg. unfold add_sever. rewrite Ha, bind_ret.
  unfold getitem at 1. rewrite Hh, bind_ret. simpl str_receiver.
  rewrite bind_ret, bind_outcome, Hg. reflexivity.
Qed.

Lemma hostname_of_Some server hostname :
  hostname_of server = Some hostname ->
  exists attrs, attributes server = Some attrs /\
                attrs !! "hostname" = Some (PyStr hostname).
Proof.
  unfold hostname_of. destruct (attributes server) as [attrs | ]; [ | discriminate].
  destruct (attrs !! "hostname") as [[ | | h | ] | ] eqn:Hh; try discriminate.
  intros [= ->]. exists attrs. split; [reflexivity | exact Hh].
Qed.

(** A record registers its host once, or fails without registering it. *)
Lemma add_sever_hosts server hist :
  (added_hosts (fst (add_sever E cfg server hist)) = [] /\
   exists e, snd (add_sever E cfg server hist) = Raise e) \/
  (exists hostname,
      hostname_of server = Some hostname /\
      added_hosts (fst (add_sever E cfg server hist)) = [hostname]).
Proof.
  destruct (hostname_of server) as [hostname | ] eqn:Hn.
  - destruct (hostname_of_Some server hostname Hn) as (attrs & Ha & Hh).
    destruct (add_sever_hostname E cfg server attrs hostname hist Ha Hh)
      as [tail [Htail Hevs]].
    pose proof (get_hosts_group_no_host hostname hist) as Hcls.
    destruct (snd (get_hosts_group E cfg hostname hist)) as [group | e | ] eqn:Hg.
    + right. exists hostname. split; [reflexivity | ].
      rewrite Hevs, added_hosts_app, (added_hosts_none _ Hcls). simpl.
      rewrite (added_hosts_none tail (registers_nothing_no_host _ Htail)).
      reflexivity.
    + left. split.
      * rewrite Hevs, app_nil_r. apply added_hosts_none, Hcls.
      * exists e. apply (add_sever_classifier_raises server attrs hostname); assumption.
    + destruct (finishes_get_hosts_group E cfg hostname hist Hg).
  - destruct (add_sever_no_identity server hist Hn) as [e Hrun].
    left. rewrite Hrun. split; [reflexivity | exists e; reflexivity].
Qed.

Lemma add_sever_registered server hist :
  registered_before (fst (add_sever E cfg server hist)).
Proof.
  destruct (hostname_of server) as [hostname | ] eqn:Hn.
  - destruct (hostname_of_Some server hostname Hn) as (attrs & Ha & Hh).
    destruct (add_sever_hostname E cfg server attrs hostname hist Ha Hh)
      as [tail [Htail Hevs]].
    pose proof (get_hosts_group_no_host hostname hist) as Hcls.
    rewrite Hevs.
    destruct (snd (get_hosts_group E cfg hostname hist)) as [group | e | ] eqn:Hg.
    + intros pre host g post Heq.
      destruct (only_host _ _ _ _ _ _ _ _ Hcls
                  (registers_nothing_no_host _ Htail) Heq) as (-> & -> & Hgroup).
      subst group. rewrite (get_hosts_group_label hostname hist g Hg).
      left; reflexivity.
    + rewrite app_nil_r. apply registered_no_host, Hcls.
    + rewrite app_nil_r. apply registered_no_host, Hcls.
  - destruct (add_sever_no_identity server hist Hn) as [e Hrun].
    rewrite Hrun. apply registered_no_host. constructor.
Qed.

Lemma for_each_registered servers :
  forall hist, registered_before (fst (for_each servers (add_sever E cfg) hist)).
Proof.
  induction servers as [ | server servers IH]; intros hist; simpl for_each.
  - apply registered_no_host. constructor.
  - rewrite bind_events. apply registered_before_app.
    + apply add_sever_registered.
    + destruct (snd (add_sever E cfg server hist)).
      * apply IH.
      * apply registered_no_host. constructor.
      * apply registered_no_host. constructor.
Qed.

(** The loop over the records registers the hosts of the first [k] records,
    one each and in order; all of them when it returns. *)
Lemma for_each_hosts servers :
  forall hist,
  exists k,
    k <= length servers /\
    map Some (added_hosts (fst (for_each servers (add_sever E cfg) hist))) =
    map hostname_of (firstn k servers) /\
    (snd (for_each servers (add_sever E cfg) hist) = Return tt ->
     k = length servers).
Proof.
  induction servers as [ | server servers IH]; intros hist; simpl for_each.
  - exists 0. repeat split; reflexivity.
  - rewrite bind_events, bind_outcome.
    destruct (add_sever_hosts server hist) as [[Hnone [e He]] | [h [Hn Hone]]].
    + exists 0. rewrite He, app_nil_r, Hnone. simpl.
      repeat split; [lia | discriminate].
    + destruct (snd (add_sever E cfg server hist)) as [[] | e | ].
      * destruct (IH (hist ++ fst (add_sever E cfg server hist)))
          as (k & Hk & Hmap & Hret).
        exists (S k). rewrite added_hosts_app, Hone. simpl.
        rewrite Hmap, Hn. repeat split; [lia | ].
        intros Hr. rewrite (Hret Hr). reflexivity.
      * exists 1. rewrite app_nil_r, Hone. simpl. rewrite Hn.
        repeat split; [lia | discriminate].
      * exists 1. rewrite app_nil_r, Hone. simpl. rewrite Hn.
        repeat split; [lia | discriminate].
Qed.

(** The loop stops at a record without [hostname]: it raises, and the hosts
    it has registered are those of records before that one. *)
Lemma for_each_missing_hostname pre server post attrs :
  attributes server = Some attrs ->
  attrs !! "hostname" = None ->
  forall hist,
    (exists e, snd (for_each (pre ++ server :: post) (add_sever E cfg) hist)
               = Raise e) /\
    (exists k,
        k <= length pre /\
        map Some (added_hosts
                    (fst (for_each (pre ++ server :: post) (add_sever E cfg) hist))) =
        map hostname_of (firstn k pre)) /\
    (forall evs,
        for_each pre (add_sever E cfg) hist = (evs, Return tt) ->
        for_each (pre ++ server :: post) (add_sever E cfg) hist =
        (evs, Raise (KeyError "hostname"))).
Proof.
  intros Ha Hh.
  induction pre as [ | p pre IH]; intros hist; simpl app; simpl for_each.
  - unfold bind. rewrite (add_sever_no_hostname E cfg server attrs hist Ha Hh).
    split; [eexists; reflexivity | ]. split.
    + exists 0. split; [lia | reflexivity].
    + intros evs [= <-]. reflexivity.
  - rewrite bind_events, bind_outcome.
    destruct (add_sever_hosts p hist) as [[Hnone [e He]] | [h [Hn Hone]]].
    + rewrite He, app_nil_r, Hnone. split; [eexists; reflexivity | ]. split.
      * exists 0. split; [lia | reflexivity].
      * intros evs Hrun. apply (f_equal snd) in Hrun. simpl in Hrun.
        rewrite bind_outcome, He in Hrun. discriminate.
    + destruct (add_sever E cfg p hist) as [evs_p [[] | e | ]] eqn:Hp;
        simpl fst in *; simpl snd.
      * destruct (IH (hist ++ evs_p)) as ([e He] & (k & Hk & Hmap) & Hexact).
        split; [exists e; exact He | ]. split.
        -- exists (S k). rewrite added_hosts_app, Hone. simpl.
           rewrite Hmap, Hn. split; [lia | reflexivity].
        -- intros evs Hrun. unfold bind in Hrun |- *. rewrite Hp in Hrun |- *.
           destruct (for_each pre (add_sever E cfg) (hist ++ evs_p))
             as [evs' o'] eqn:Hpre.
           injection Hrun as <- ->.
           rewrite (Hexact evs' eq_refl). reflexivity.
      * split; [eexists; reflexivity | ]. split.
        -- exists 1. rewrite app_nil_r, Hone. simpl. rewrite Hn.
           split; [lia | reflexivity].
        -- intros evs Hrun. unfold bind in Hrun. rewrite Hp in Hrun.
           discriminate.
      * destruct (finishes_add_sever E cfg p hist). rewrite Hp. reflexivity.
Qed.

End Registration.

Section ParseProperties.
Context (E : Env) (cfg : Config).

Lemma get_servers_no_host fuel hist :
  Forall adds_no_host (fst (get_servers E cfg fuel hist)).
Proof. apply emits_get_servers_loop. intros req; exact I. Qed.

Lemma get_servers_hist fuel h1 h2 :
  get_servers E cfg fuel h1 = get_servers E cfg fuel h2.
Proof. apply get_servers_loop_hist. Qed.

Lemma add_sever_assembler_calls server :
  emits assembler_call (add_sever E cfg server).
Proof.
  unfold add_sever.
  apply emits_bind; [destruct (attributes server);
                     [apply emits_ret | apply emits_raise] | intros attrs].
  apply emits_bind; [apply emits_getitem | intros v].
  apply emits_bind; [apply emits_str_receiver | intros hostname].
  apply emits_bind; [apply emits_get_hosts_group; intros; exact I | intros group].
  apply emits_bind; [apply emits_call; exact I | intros _].
  apply emits_bind; [apply emits_getitem | intros ip].
  apply emits_bind; [apply emits_for_each; intros [k v']; apply emits_call; exact I
                    | intros _].
  repeat (apply emits_bind; [apply emits_call; exact I | intros _]).
  apply emits_call; exact I.
Qed.

End ParseProperties.

(** The parse returns when the framework accepts every call, the API serves
    its pages and then an empty one, and every record has its hostname and
    its address. *)
Lemma for_each_returns {A} (xs : list A) (body : A -> M unit) :
  (forall x, In x xs -> forall h, snd (body x h) = Return tt) ->
  forall h, snd (for_each xs body h) = Return tt.
Proof.
  induction xs as [ | x xs IH]; intros Hbody h; simpl for_each; [reflexivity | ].
  rewrite bind_outcome, (Hbody x (or_introl eq_refl)).
  apply IH. intros y Hy. apply Hbody. right; exact Hy.
Qed.

(** X18. The parse runs to the end when nothing fails: with a framework
    that accepts every call, an API that serves non-empty pages and then an
    empty one, fuel for these requests, and records that all have a string
    hostname and a [primary_ipv4], [parse] returns. *)
Lemma parse_returns (E : Env) (cfg : Config) (pages : list (list Server))
    (fuel : nat) (path : string) (cache : bool) (hist : list Event) :
  (forall h ev, framework E h ev = None) ->
  Forall (fun p => p <> []) pages ->
  serves E cfg (pages ++ [[]]) ->
  length pages < fuel ->
  (forall server, In server (concat pages) ->
                  exists attrs hostname ip,
                    attributes server = Some attrs /\
                    attrs !! "hostname" = Some (PyStr hostname) /\
                    attrs !! "primary_ipv4" = Some ip) ->
  snd (parse E cfg fuel path cache hist) = Return tt.
Proof.
  intros Hok Hne Hapi Hfuel Hrecords.
  unfold parse. rewrite !bind_outcome. simpl call. simpl snd. simpl fst.
  rewrite !Hok.
  pose proof (get_servers_loop_pages E cfg pages fuel 1 []
                ((hist ++ [BaseParse path cache]) ++ [ReadConfigData path])
                Hne Hapi Hfuel) as Hfetch.
  change (get_servers_loop E cfg fuel (Z.of_nat 1) []) with (get_servers E cfg fuel)
    in Hfetch.
  rewrite Hfetch. simpl snd. apply for_each_returns. intros server Hin h.
  destruct (Hrecords server Hin) as (attrs & hostname & ip & Ha & Hh & Hip).
  apply (add_sever_accepted E cfg server attrs hostname ip h Hok Ha Hh Hip).
Qed.

(** C4. When a fetched record has no [hostname] key, the parse fails: it
    raises, and the hosts it has registered are those of records before
    that one (the first [k] of them, one registration each), never of a
    record after it. The failure is at that record: once the records before
    it are processed, the loop raises the [KeyError] of the lookup without
    any further call. *)
Theorem missing_hostname_aborts_parse
    (E : Env) (cfg : Config) (fuel : nat) (path : string) (cache : bool)
    (hist h0 : list Event) (pre post : list Server) (server : Server)
    (attrs : ServerAttributes) :
  snd (get_servers E cfg fuel h0) = Return (pre ++ server :: post) ->
  attributes server = Some attrs ->
  attrs !! "hostname" = None ->
  (exists e, snd (parse E cfg fuel path cache hist) = Raise e) /\
  (exists k,
      k <= length pre /\
      map Some (added_hosts (fst (parse E cfg fuel path cache hist))) =
      map hostname_of (firstn k pre)) /\
  (forall h evs,
      for_each pre (add_sever E cfg) h = (evs, Return tt) ->
      for_each (pre ++ server :: post) (add_sever E cfg) h =
      (evs, Raise (KeyError "hostname"))).
Proof.
  intros Hfetch Ha Hh.
  destruct (parse_cases E cfg fuel path cache hist)
    as [[Hsetup [e He]] | [h [Hevs Hout]]].
  - split; [exists e; exact He | ]. split.
    + exists 0. split; [lia | ].
      rewrite (added_hosts_none _ (setup_no_host _ Hsetup)). reflexivity.
    + intros h evs. apply (for_each_missing_hostname E cfg pre server post attrs Ha Hh).
  - rewrite (get_servers_hist E cfg fuel h h0), Hfetch in Hevs, Hout.
    destruct (for_each_missing_hostname E cfg pre server post attrs Ha Hh
                (h ++ fst (get_servers E cfg fuel h0)))
      as ([e He] & (k & Hk & Hmap) & _).
    split; [exists e; rewrite Hout; exact He | ]. split.
    + exists k. split; [exact Hk | ].
      rewrite Hevs, !added_hosts_app.
      rewrite (added_hosts_none _ (get_servers_no_host E cfg fuel h0)).
      simpl. exact Hmap.
    + intros h' evs. apply (for_each_missing_hostname E cfg pre server post attrs Ha Hh).
Qed.

Lemma missing_hostname_aborts_parse_witness :
  (exists e,
      snd (parse (sample_env [[db_staging_1; no_hostname]; [server1]]) no_filters 3
             "latitude.yml" true []) = Raise e) /\
  (exists k,
      k <= 1 /\
      map Some (added_hosts
                  (fst (parse (sample_env [[db_staging_1; no_hostname]; [server1]])
                          no_filters 3 "latitude.yml" true []))) =
      map hostname_of (firstn k [db_staging_1])).
Proof.
  destruct (missing_hostname_aborts_parse
              (sample_env [[db_staging_1; no_hostname]; [server1]]) no_filters 3
              "latitude.yml" true [] [] [db_staging_1] [server1] no_hostname
              (list_to_map [("primary_ipv4", PyStr "10.0.0.5")]))
    as (Hraise & Hhosts & _).
  - vm_compute. reflexivity.
  - reflexivity.
  - vm_compute. reflexivity.
  - split; [exact Hraise | exact Hhosts].
Defined.

(** C9. In every parse, a host registered under a group label comes after
    the registration ([add_group]) of that group. When the parse returns,
    the [add_host] calls are those of the fetched records, one each and in
    order; in every parse they are those of the records processed, up to the
    record at which the parse fails. A record is registered exactly once as
    soon as the classifier returns, be the label a group or none. *)
Theorem hosts_added_once_groups_first
    (E : Env) (cfg : Config) (fuel : nat) (path : string) (cache : bool)
    (hist : list Event) :
  (forall pre host g post,
      fst (parse E cfg fuel path cache hist) = pre ++ AddHost host (Some g) :: post ->
      In (AddGroup g) pre) /\
  (forall servers h0,
      snd (get_servers E cfg fuel h0) = Return servers ->
      snd (parse E cfg fuel path cache hist) = Return tt ->
      map Some (added_hosts (fst (parse E cfg fuel path cache hist))) =
      map hostname_of servers) /\
  (forall servers h0,
      snd (get_servers E cfg fuel h0) = Return servers ->
      exists k,
        k <= length servers /\
        map Some (added_hosts (fst (parse E cfg fuel path cache hist))) =
        map hostname_of (firstn k servers)) /\
  (forall server attrs hostname h group,
      attributes server = Some attrs ->
      attrs !! "hostname" = Some (PyStr hostname) ->
      snd (get_hosts_group E cfg hostname h) = Return group ->
      added_hosts (fst (add_sever E cfg server h)) = [hostname] /\
      In (AddHost hostname group) (fst (add_sever E cfg server h))).
Proof.
  assert (forall servers h0,
             snd (get_servers E cfg fuel h0) = Return servers ->
             exists k,
               k <= length servers /\
               map Some (added_hosts (fst (parse E cfg fuel path cache hist))) =
               map hostname_of (firstn k servers) /\
               (snd (parse E cfg fuel path cache hist) = Return tt ->
                k = length servers)) as Hprefix.
  { intros servers h0 Hfetch.
    destruct (parse_cases E cfg fuel path cache hist)
      as [[Hsetup [e He]] | [h [Hevs Hout]]].
    - exists 0. rewrite (added_hosts_none _ (setup_no_host _ Hsetup)), He.
      repeat split; [lia | discriminate].
    - rewrite (get_servers_hist E cfg fuel h h0), Hfetch in Hevs, Hout.
      destruct (for_each_hosts E cfg servers (h ++ fst (get_servers E cfg fuel h0)))
        as (k & Hk & Hmap & Hret).
      exists k. rewrite Hevs, Hout, !added_hosts_app.
      rewrite (added_hosts_none _ (get_servers_no_host E cfg fuel h0)).
      simpl. repeat split; assumption. }
  split; [ | split; [ | split]].
  - change (registered_before (fst (parse E cfg fuel path cache hist))).
    destruct (parse_cases E cfg fuel path cache hist)
      as [[Hsetup _] | [h [Hevs _]]].
    + apply registered_no_host, setup_no_host, Hsetup.
    + rewrite Hevs. apply registered_before_app.
      { apply registered_no_host. repeat constructor. }
      apply registered_before_app.
      { apply registered_no_host, get_servers_no_host. }
      destruct (snd (get_servers E cfg fuel h)).
      * apply for_each_registered.
      * apply registered_no_host. constructor.
      * apply registered_no_host. constructor.
  - intros servers h0 Hfetch Hret.
    destruct (Hprefix servers h0 Hfetch) as (k & _ & Hmap & Hall).
    rewrite Hmap, (Hall Hret), firstn_all. reflexivity.
  - intros servers h0 Hfetch.
    destruct (Hprefix servers h0 Hfetch) as (k & Hk & Hmap & _).
    exists k. split; assumption.
  - intros server attrs hostname h group Ha Hh Hg.
    destruct (add_sever_hostname E cfg server attrs hostname h Ha Hh)
      as [tail [Htail Hevs]].
    rewrite Hg in Hevs. rewrite Hevs. split.
    + rewrite added_hosts_app.
      rewrite (added_hosts_none _ (get_hosts_group_no_host E cfg hostname h)).
      simpl. rewrite (added_hosts_none tail (registers_nothing_no_host _ Htail)).
      reflexivity.
    + apply in_or_app. right. left. reflexivity.
Qed.

Lemma hosts_added_once_groups_first_witness :
  map Some (added_hosts
              (fst (parse (sample_env [[db_staging_1; web_prod_2]; [server1]])
                      no_filters 3 "latitude.yml" true []))) =
  map hostname_of [db_staging_1; web_prod_2; server1] /\
  (map hostname_of [db_staging_1; web_prod_2; server1] =
   [Some "db-staging-1"; Some "web-prod-2"; Some "server1"]).
Proof.
  split.
  - apply (proj1 (proj2 (hosts_added_once_groups_first
                           (sample_env [[db_staging_1; web_prod_2]; [server1]])
                           no_filters 3 "latitude.yml" true []))
             [db_staging_1; web_prod_2; server1] []).
    + vm_compute. reflexivity.
    + vm_compute. reflexivity.
  - vm_compute. reflexivity.
Defined.

(** * Further properties of the plugin *)

(** ** Strings *)

Lemma str_length_app (a b : string) :
  String.length (append a b) = String.length a + String.length b.
Proof. induction a as [ | c a IH]; simpl; [reflexivity | rewrite IH; reflexivity]. Qed.

Lemma substring_whole (s : string) : substring 0 (String.length s) s = s.
Proof. induction s as [ | c s IH]; simpl; [reflexivity | rewrite IH; reflexivity]. Qed.

Lemma substring_skip (a s : string) (m : nat) :
  substring (String.length a) m (append a s) = substring 0 m s.
Proof. induction a as [ | c a IH]; simpl; [reflexivity | exact IH]. Qed.

Lemma substring_split (s : string) :
  forall k, k <= String.length s ->
            s = append (substring 0 k s) (substring k (String.length s - k) s).
Proof.
  induction s as [ | c s IH]; intros k Hk; simpl in Hk.
  - destruct k; [reflexivity | lia].
  - destruct k as [ | k].
    + simpl. rewrite substring_whole. reflexivity.
    + change (String c s =
              String c (append (substring 0 k s)
                          (substring k (String.length s - k) s))).
      f_equal. apply IH. lia.
Qed.

(** [endswith] holds exactly of the strings that are a prefix followed by the
    suffix. *)
Lemma str_endswith_iff (s suffix : string) :
  str_endswith s suffix = true <-> exists prefix, s = append prefix suffix.
Proof.
  unfold str_endswith. split.
  - intros H. apply andb_prop in H as [Hlen Heq].
    apply Nat.leb_le in Hlen. apply String.eqb_eq in Heq.
    exists (substring 0 (String.length s - String.length suffix) s).
    remember (String.length suffix) as m eqn:Hm. clear Hm.
    pose proof (substring_split s (String.length s - m)) as Hsplit.
    replace (String.length s - (String.length s - m)) with m in Hsplit by lia.
    rewrite Heq in Hsplit. apply Hsplit. lia.
  - intros [prefix ->]. rewrite str_length_app. apply andb_true_intro. split.
    + apply Nat.leb_le. lia.
    + replace (String.length prefix + String.length suffix - String.length suffix)
        with (String.length prefix) by lia.
      rewrite substring_skip, substring_whole. apply String.eqb_refl.
Qed.

(** X1. [verify_file] accepts a path exactly when the parent class accepts
    it and the path is some prefix followed by "latitude.yaml" or by
    "latitude.yml". *)
Theorem verify_file_iff (base : string -> bool) (path : string) :
  verify_file base path = true <->
  base path = true /\
  exists prefix, path = append prefix "latitude.yaml" \/
                 path = append prefix "latitude.yml".
Proof.
  unfold verify_file, str_endswith_any. simpl existsb.
  rewrite orb_false_r, andb_true_iff, orb_true_iff, !str_endswith_iff.
  split.
  - intros [Hb [[prefix H] | [prefix H]]]; (split; [exact Hb | ]);
      exists prefix; auto.
  - intros [Hb [prefix [H | H]]]; (split; [exact Hb | ]);
      [left | right]; exists prefix; exact H.
Qed.

Example verify_file_examples :
  verify_file (fun _ => true) "inventory/prod.latitude.yml" = true /\
  verify_file (fun _ => true) "latitude.yaml" = true /\
  verify_file (fun _ => true) "latitude.yml.bak" = false /\
  verify_file (fun _ => true) "latitude.YML" = false /\
  verify_file (fun _ => true) "tude.yml" = false /\
  verify_file (fun _ => false) "latitude.yml" = false.
Proof. repeat split. Qed.

Lemma verify_file_iff_witness :
  verify_file (fun _ => true) "inventory/prod.latitude.yml" = true.
Proof.
  apply (proj2 (verify_file_iff (fun _ => true) "inventory/prod.latitude.yml")).
  split; [reflexivity | ]. exists "inventory/prod.". right. reflexivity.
Defined.

(** ** The split of a hostname *)

Lemma str_split_not_nil (sep : ascii) (s : string) : str_split sep s <> [].
Proof.
  induction s as [ | c s IH]; simpl; [discriminate | ].
  destruct (Ascii.eqb c sep); [discriminate | ].
  destruct (str_split sep s); discriminate.
Qed.

Lemma str_split_no_sep (sep : ascii) (s : string) :
  has_char sep s = false -> str_split sep s = [s].
Proof.
  induction s as [ | c s IH]; simpl; [reflexivity | ].
  intros H. apply orb_false_elim in H as [Hc Hs].
  rewrite Hc, (IH Hs). reflexivity.
Qed.

Lemma str_split_app (sep : ascii) (a rest : string) :
  has_char sep a = false ->
  str_split sep (append a (String sep rest)) = a :: str_split sep rest.
Proof.
  induction a as [ | c a IH]; simpl.
  - intros _. rewrite Ascii.eqb_refl. reflexivity.
  - intros H. apply orb_false_elim in H as [Hc Ha].
    rewrite Hc, (IH Ha). reflexivity.
Qed.

Lemma str_app_empty (s : string) : append s EmptyString = s.
Proof.
  induction s as [ | c s IH]; [reflexivity | ].
  change (String c (append s EmptyString) = String c s). f_equal. exact IH.
Qed.

(** A string has no separator, or is a separator-free part, a separator and
    the rest. *)
Lemma first_sep (sep : ascii) (s : string) :
  has_char sep s = false \/
  exists a rest, s = append a (String sep rest) /\ has_char sep a = false.
Proof.
  induction s as [ | c s IH]; simpl; [left; reflexivity | ].
  destruct (Ascii.eqb c sep) eqn:Hc.
  - right. apply Ascii.eqb_eq in Hc as ->.
    exists EmptyString, s. split; reflexivity.
  - destruct IH as [Hs | (a & rest & -> & Ha)].
    + left. exact Hs.
    + right. exists (String c a), rest. simpl. rewrite Hc, Ha.
      split; reflexivity.
Qed.

Lemma str_split_components (sep : ascii) (s : string) :
  Forall (fun part => has_char sep part = false) (str_split sep s).
Proof.
  induction s as [ | c s IH]; simpl; [repeat constructor | ].
  destruct (Ascii.eqb c sep) eqn:Hc; [constructor; [reflexivity | exact IH] | ].
  destruct (str_split sep s) as [ | w ws]; [repeat constructor; simpl | ].
  - rewrite Hc. reflexivity.
  - constructor; [ | exact (Forall_inv_tail IH)].
    simpl. rewrite Hc. exact (Forall_inv IH).
Qed.

Lemma str_join_split (sep : ascii) (s : string) :
  str_join sep (str_split sep s) = s.
Proof.
  induction s as [ | c s IH]; simpl; [reflexivity | ].
  destruct (Ascii.eqb c sep) eqn:Hc.
  - apply Ascii.eqb_eq in Hc as ->.
    pose proof (str_split_not_nil sep s) as Hne.
    destruct (str_split sep s) as [ | w ws]; [congruence | ].
    simpl in *. rewrite IH. reflexivity.
  - pose proof (str_split_not_nil sep s) as Hne.
    destruct (str_split sep s) as [ | w ws]; [congruence | ].
    destruct ws as [ | w' ws]; simpl in *.
    + rewrite IH. reflexivity.
    + rewrite <- IH. reflexivity.
Qed.

(** X2. The split of a hostname on "-" loses nothing: its components
    contain no "-", there is at least one, and joined by "-" they give
    the hostname back. *)
Theorem hostname_split_round_trip (hostname : string) :
  str_join "-" (str_split "-" hostname) = hostname /\
  Forall (fun part => has_char "-" part = false) (str_split "-" hostname) /\
  1 <= length (str_split "-" hostname).
Proof.
  split; [apply str_join_split | ]. split; [apply str_split_components | ].
  pose proof (str_split_not_nil "-" hostname) as Hne.
  destruct (str_split "-" hostname); [congruence | simpl; lia].
Qed.

(** X3. The group candidate, [hostname.split("-")[1]], is the text between
    the first "-" of the hostname and the next one (or the end): there
    is none exactly when the hostname has no "-", and otherwise it is
    the [g] of the one way to write the hostname as [a-g] or [a-g-...] with
    no "-" in [a] and [g]. *)
Theorem group_candidate_is_second_field (hostname : string) :
  (nth_error (str_split "-" hostname) 1 = None <->
   has_char "-" hostname = false) /\
  (forall g,
      nth_error (str_split "-" hostname) 1 = Some g <->
      exists a tail,
        hostname = append a (String "-" (append g tail)) /\
        has_char "-" a = false /\
        has_char "-" g = false /\
        (tail = EmptyString \/ exists t, tail = String "-" t)).
Proof.
  assert (forall a g tail,
             has_char "-" a = false ->
             has_char "-" g = false ->
             (tail = EmptyString \/ exists t, tail = String "-" t) ->
             nth_error (str_split "-" (append a (String "-" (append g tail)))) 1
             = Some g) as Hfwd.
  { intros a g tail Ha Hg Htail. rewrite (str_split_app "-" a _ Ha).
    destruct Htail as [-> | [t ->]].
    - rewrite str_app_empty.
      rewrite (str_split_no_sep "-" g Hg). reflexivity.
    - rewrite (str_split_app "-" g t Hg). reflexivity. }
  assert (has_char "-" hostname = false \/
          exists a g tail,
            hostname = append a (String "-" (append g tail)) /\
            has_char "-" a = false /\
            has_char "-" g = false /\
            (tail = EmptyString \/ exists t, tail = String "-" t)) as Hcases.
  { destruct (first_sep "-" hostname) as [Hno | (a & rest & -> & Ha)];
      [left; exact Hno | right].
    destruct (first_sep "-" rest) as [Hno | (g & t & -> & Hg)].
    - exists a, rest, EmptyString. rewrite str_app_empty.
      repeat split; auto.
    - exists a, g, (String "-" t). repeat split; eauto. }
  split.
  - split.
    + intros Hnone. destruct Hcases as [Hno | (a & g & tail & -> & Ha & Hg & Ht)];
        [exact Hno | ].
      rewrite (Hfwd a g tail Ha Hg Ht) in Hnone. discriminate.
    + intros Hno. rewrite (str_split_no_sep "-" hostname Hno). reflexivity.
  - intros g. split.
    + intros Hsome.
      destruct Hcases as [Hno | (a & g' & tail & -> & Ha & Hg & Ht)].
      * rewrite (str_split_no_sep "-" hostname Hno) in Hsome. discriminate.
      * rewrite (Hfwd a g' tail Ha Hg Ht) in Hsome. injection Hsome as <-.
        exists a, tail. repeat split; assumption.
    + intros (a & tail & -> & Ha & Hg & Ht). apply Hfwd; assumption.
Qed.

Lemma group_candidate_is_second_field_witness :
  nth_error (str_split "-" "db-staging-1") 1 = Some "staging" /\
  nth_error (str_split "-" "server1") 1 = None.
Proof.
  split.
  - apply (proj2 (proj2 (group_candidate_is_second_field "db-staging-1") "staging")).
    exists "db", "-1". repeat split. right. exists "1". reflexivity.
  - apply (proj2 (proj1 (group_candidate_is_second_field "server1"))).
    reflexivity.
Defined.

(** ** More on the classifier *)

(** X4. The classifier registers the group candidate before it filters,
    and whatever the filters decide: its calls are the one [add_group] of
    the candidate when there is one, none otherwise; and the label it
    returns is never anything but none or the candidate. A host that the
    filters leave ungrouped still has had its group registered. *)
Theorem classifier_registers_before_filtering
    (E : Env) (cfg : Config) (hostname : string) (hist : list Event) :
  fst (get_hosts_group E cfg hostname hist) =
  match nth_error (str_split "-" hostname) 1 with
  | Some g => [AddGroup g]
  | None => []
  end /\
  (forall group,
      snd (get_hosts_group E cfg hostname hist) = Return group ->
      group = None \/ group = nth_error (str_split "-" hostname) 1).
Proof.
  destruct (nth_error (str_split "-" hostname) 1) as [g | ] eqn:Hc.
  - destruct (get_hosts_group_candidate E cfg hostname g hist Hc)
      as [Hevs [Hout | [Hout | [e Hout]]]]; (split; [exact Hevs | ]);
      intros group Hret; rewrite Hout in Hret;
      [injection Hret as <-; left | injection Hret as <-; right | discriminate];
      reflexivity.
  - rewrite (get_hosts_group_no_candidate E cfg hostname hist Hc).
    split; [reflexivity | ]. intros group [= <-]. left; reflexivity.
Qed.

Lemma classifier_registers_before_filtering_witness :
  get_hosts_group (sample_env [])
    (with_include (PyList [PyStr "staging"]) no_filters) "web-prod-01" []
  = ([AddGroup "prod"], Return None).
Proof.
  pose proof (classifier_registers_before_filtering (sample_env [])
                (with_include (PyList [PyStr "staging"]) no_filters)
                "web-prod-01" []) as [Hevs _].
  destruct (get_hosts_group (sample_env [])
              (with_include (PyList [PyStr "staging"]) no_filters)
              "web-prod-01" []) as [evs out] eqn:Hrun.
  simpl in Hevs. rewrite Hevs. f_equal.
  vm_compute in Hrun. injection Hrun as _ <-. reflexivity.
Defined.

(** X5. The [suppress(IndexError)] block covers the call of [add_group]: an
    [IndexError] raised by the registration is swallowed and the classifier
    goes on to the filters as if the call had returned; any other exception
    of the registration leaves the classifier unchanged, after that one
    call. *)
Theorem add_group_errors
    (E : Env) (cfg : Config) (hostname g : string) (hist : list Event) (e : Exn) :
  nth_error (str_split "-" hostname) 1 = Some g ->
  framework E hist (AddGroup g) = Some e ->
  get_hosts_group E cfg hostname hist =
  ([AddGroup g],
   if is_IndexError e
   then Return (if truthy (include_tags cfg) && py_ne (include_tags cfg) (PyStr g)
                then None
                else if truthy (exclude_tags cfg)
                        && py_eq (exclude_tags cfg) (PyStr g)
                     then None
                     else Some g)
   else Raise e).
Proof.
  intros Hc He. unfold get_hosts_group. rewrite Hc.
  unfold bind, suppress, call, ret. rewrite He. simpl.
  destruct (is_IndexError e); simpl; [ | reflexivity].
  destruct (truthy (include_tags cfg) && py_ne (include_tags cfg) (PyStr g));
    [reflexivity | ].
  destruct (truthy (exclude_tags cfg) && py_eq (exclude_tags cfg) (PyStr g));
    reflexivity.
Qed.

Lemma add_group_errors_witness :
  get_hosts_group {| http := paged []; framework := rejecting is_add_group IndexError |}
    no_filters "web-prod-01" [] = ([AddGroup "prod"], Return (Some "prod")) /\
  get_hosts_group
    {| http := paged [];
       framework := rejecting is_add_group (AnsibleError "invalid group") |}
    no_filters "web-prod-01" []
  = ([AddGroup "prod"], Raise (AnsibleError "invalid group")).
Proof.
  split.
  - apply (add_group_errors
             {| http := paged []; framework := rejecting is_add_group IndexError |}
             no_filters "web-prod-01" "prod" [] IndexError); reflexivity.
  - apply (add_group_errors
             {| http := paged [];
                framework := rejecting is_add_group (AnsibleError "invalid group") |}
             no_filters "web-prod-01" "prod" [] (AnsibleError "invalid group"));
      reflexivity.
Defined.

(** X6. With the two options as the schema gives them, each unset or a
    list, [exclude_tags] has no effect at all and [include_tags] is a
    switch: the classifier returns none when [include_tags] is a non-empty
    list, and the group candidate (none when there is no candidate) in every
    other case. The registration of the candidate is taken to return. *)
Theorem classifier_decision_table
    (E : Env) (cfg : Config) (hostname : string) (hist : list Event) :
  unset_or_list (include_tags cfg) ->
  unset_or_list (exclude_tags cfg) ->
  (forall g, nth_error (str_split "-" hostname) 1 = Some g ->
             framework E hist (AddGroup g) = None) ->
  snd (get_hosts_group E cfg hostname hist) =
  Return (if truthy (include_tags cfg) then None
          else nth_error (str_split "-" hostname) 1).
Proof.
  intros Hinc Hexc Hok.
  assert (forall group,
             truthy (include_tags cfg) && py_ne (include_tags cfg) (of_group group)
             = truthy (include_tags cfg)) as Hi.
  { intros group. destruct Hinc as [-> | [l ->]]; [reflexivity | ].
    unfold py_ne. rewrite py_eq_list_group. apply andb_true_r. }
  assert (forall group,
             truthy (exclude_tags cfg) && py_eq (exclude_tags cfg) (of_group group)
             = false) as He.
  { intros group. destruct Hexc as [-> | [l ->]]; [reflexivity | ].
    rewrite py_eq_list_group. apply andb_false_r. }
  destruct (nth_error (str_split "-" hostname) 1) as [g | ] eqn:Hc.
  - rewrite (get_hosts_group_accepted E cfg hostname g hist Hc (Hok g eq_refl)).
    pose proof (Hi (Some g)) as Hi'. pose proof (He (Some g)) as He'.
    simpl of_group in Hi', He'. rewrite Hi', He'.
    destruct (truthy (include_tags cfg)); reflexivity.
  - rewrite (get_hosts_group_no_candidate E cfg hostname hist Hc).
    destruct (truthy (include_tags cfg)); reflexivity.
Qed.

Lemma classifier_decision_table_witness :
  snd (get_hosts_group (sample_env [])
         (with_exclude (PyList [PyStr "prod"]) (with_include (PyList []) no_filters))
         "web-prod-01" []) = Return (Some "prod").
Proof.
  apply (classifier_decision_table (sample_env [])
           (with_exclude (PyList [PyStr "prod"]) (with_include (PyList []) no_filters))
           "web-prod-01" []).
  - right. exists []. reflexivity.
  - right. exists [PyStr "prod"]. reflexivity.
  - reflexivity.
Defined.

(** ** More on the assembler *)

(** X7. A record with no identity fails before any call is made: without
    [attributes] the lookup raises [KeyError]; with a hostname that is not
    a string (a null, a number, a list) the call of [split] raises
    [AttributeError]. Nothing is registered for it. *)
Theorem record_without_identity
    (E : Env) (cfg : Config) (server : Server) (hist : list Event) :
  (attributes server = None ->
   add_sever E cfg server hist = ([], Raise (KeyError "attributes"))) /\
  (forall attrs v,
      attributes server = Some attrs ->
      attrs !! "hostname" = Some v ->
      (forall s, v <> PyStr s) ->
      add_sever E cfg server hist = ([], Raise (AttributeError "split"))).
Proof.
  split.
  - intros Ha. unfold add_sever. rewrite Ha. reflexivity.
  - intros attrs v Ha Hh Hv. unfold add_sever. rewrite Ha, bind_ret.
    unfold getitem. rewrite Hh, bind_ret.
    destruct v as [ | n | s | l]; try reflexivity.
    destruct (Hv s eq_refl).
Qed.

Lemma record_without_identity_witness :
  add_sever (sample_env []) no_filters no_attributes []
  = ([], Raise (KeyError "attributes")) /\
  add_sever (sample_env []) no_filters null_hostname []
  = ([], Raise (AttributeError "split")).
Proof.
  split.
  - apply (proj1 (record_without_identity (sample_env []) no_filters
                    no_attributes [])).
    reflexivity.
  - apply (proj2 (record_without_identity (sample_env []) no_filters
                    null_hostname [])
             (list_to_map [("hostname", PyNone); ("primary_ipv4", PyStr "10.0.0.8")])
             PyNone).
    + reflexivity.
    + vm_compute. reflexivity.
    + discriminate.
Defined.

(** X8. A record with a string hostname and a [primary_ipv4], under a
    framework that accepts every call, is mapped to the end by exactly
    these calls, in this order: the registration of its group candidate if
    it has one, [add_host] under the label of the classifier, the three
    [set_variable] ([public_ip_address], [server_name], [group], the last
    one being that same label), and the three delegations, all three on the
    same dict of these three variables. *)
Theorem well_formed_record_calls
    (E : Env) (cfg : Config) (server : Server) (attrs : ServerAttributes)
    (hostname : string) (ip : pyval) (hist : list Event) :
  (forall h ev, framework E h ev = None) ->
  attributes server = Some attrs ->
  attrs !! "hostname" = Some (PyStr hostname) ->
  attrs !! "primary_ipv4" = Some ip ->
  exists group,
    get_hosts_group E cfg hostname hist =
    (match nth_error (str_split "-" hostname) 1 with
     | Some g => [AddGroup g]
     | None => []
     end, Return group) /\
    add_sever E cfg server hist =
    (match nth_error (str_split "-" hostname) 1 with
     | Some g => [AddGroup g]
     | None => []
     end ++ registration_calls cfg hostname ip group, Return tt).
Proof.
  intros Hok Ha Hh Hip.
  pose proof (add_sever_accepted E cfg server attrs hostname ip hist Hok Ha Hh Hip)
    as Hret.
  destruct (add_sever_returned E cfg server hist Hret)
    as (attrs' & h & ip' & group & Ha' & Hh' & Hip' & Hg & Hevs).
  assert (attrs' = attrs) as -> by congruence.
  assert (h = hostname) as -> by congruence.
  assert (ip' = ip) as -> by congruence.
  assert (fst (get_hosts_group E cfg hostname hist) =
          match nth_error (str_split "-" hostname) 1 with
          | Some g => [AddGroup g]
          | None => []
          end) as Hcls.
  { destruct (nth_error (str_split "-" hostname) 1) as [g | ] eqn:Hc.
    - apply (get_hosts_group_candidate E cfg hostname g hist Hc).
    - rewrite (get_hosts_group_no_candidate E cfg hostname hist Hc). reflexivity. }
  exists group. split.
  - apply injective_projections; simpl; assumption.
  - apply injective_projections; simpl.
    + rewrite Hevs, Hcls. reflexivity.
    + exact Hret.
Qed.

Lemma well_formed_record_calls_witness :
  add_sever (sample_env []) no_filters server1 [] =
  (registration_calls no_filters "server1" (PyStr "10.0.0.3") None, Return tt).
Proof.
  destruct (well_formed_record_calls (sample_env []) no_filters server1
              (list_to_map [("hostname", PyStr "server1");
                            ("primary_ipv4", PyStr "10.0.0.3")])
              "server1" (PyStr "10.0.0.3") [])
    as [group [Hg Hrun]].
  - reflexivity.
  - reflexivity.
  - vm_compute. reflexivity.
  - vm_compute. reflexivity.
  - vm_compute in Hg. injection Hg as <-. exact Hrun.
Defined.




(** X10. The mapping of a record concerns that record's host only: apart
    from the registration of a group, every call it makes names the
    hostname of the record; it makes no page request and no call of the
    parent class; and a record with no string hostname makes no call at
    all. *)
Theorem add_sever_touches_only_its_host
    (E : Env) (cfg : Config) (server : Server) (hist : list Event) :
  match hostname_of server with
  | Some hostname => Forall (about_host hostname) (fst (add_sever E cfg server hist))
  | None => fst (add_sever E cfg server hist) = []
  end.
Proof.
  destruct (hostname_of server) as [hostname | ] eqn:Hn.
  - destruct (hostname_of_Some server hostname Hn) as (attrs & Ha & Hh).
    unfold add_sever. rewrite Ha, bind_ret.
    unfold getitem at 1. rewrite Hh, bind_ret.
    simpl str_receiver. rewrite bind_ret. revert hist.
    apply emits_bind; [apply emits_get_hosts_group; intros; exact I | intros group].
    apply emits_bind; [apply emits_call; reflexivity | intros _].
    apply emits_bind; [apply emits_getitem | intros ip].
    apply emits_bind; [apply emits_for_each; intros [k v']; apply emits_call;
                       reflexivity | intros _].
    repeat (apply emits_bind; [apply emits_call; reflexivity | intros _]).
    apply emits_call; reflexivity.
  - destruct (add_sever_no_identity E cfg server hist Hn) as [e Hrun].
    rewrite Hrun. reflexivity.
Qed.

(** ** More on the fetcher *)

Section FetcherRequests.
Context (E : Env) (cfg : Config).

Lemma get_servers_loop_requests fuel :
  forall (q : nat) acc hist,
  exists m,
    m <= fuel /\
    fst (get_servers_loop E cfg fuel (Z.of_nat q) acc hist) =
    map (fun k => HttpGet (page_request cfg (Z.of_nat k))) (seq q m) /\
    (1 <= fuel -> 1 <= m) /\
    (snd (get_servers_loop E cfg fuel (Z.of_nat q) acc hist) = OutOfFuel ->
     m = fuel).
Proof.
  induction fuel as [ | fuel IH]; intros q acc hist.
  - exists 0. simpl. repeat split; auto.
  - rewrite get_servers_loop_step.
    assert (exists m, m <= S fuel /\
                      [HttpGet (page_request cfg (Z.of_nat q))] =
                      map (fun k => HttpGet (page_request cfg (Z.of_nat k))) (seq q m) /\
                      (1 <= S fuel -> 1 <= m)) as Hone.
    { exists 1. simpl. repeat split; lia. }
    destruct Hone as (m1 & Hm1 & Hevs1 & Hpos1).
    destruct (http E (page_request cfg (Z.of_nat q))) as [e | r].
    { exists m1. simpl. repeat split; auto; discriminate. }
    destruct (status_error r).
    { exists m1. simpl. repeat split; auto; discriminate. }
    destruct (json_body r) as [body | ].
    2:{ exists m1. simpl. repeat split; auto; discriminate. }
    destruct (default [] (data body)) as [ | s servers].
    { exists m1. simpl. repeat split; auto; discriminate. }
    replace (Z.of_nat q + 1)%Z with (Z.of_nat (S q)) by lia.
    destruct (IH (S q) (acc ++ s :: servers)
                (hist ++ [HttpGet (page_request cfg (Z.of_nat q))]))
      as (m & Hm & Hevs & _ & Hfuel).
    exists (S m). simpl. rewrite Hevs. repeat split; try lia.
    intros Hout. rewrite (Hfuel Hout). reflexivity.
Qed.

(** Any failure of a page request ends the loop with that failure, at that
    request. *)
Lemma get_servers_loop_failure fuel :
  forall page acc hist req e,
    In (HttpGet req) (fst (get_servers_loop E cfg fuel page acc hist)) ->
    failure_of E req = Some e ->
    snd (get_servers_loop E cfg fuel page acc hist) = Raise e /\
    exists earlier,
      fst (get_servers_loop E cfg fuel page acc hist) = earlier ++ [HttpGet req].
Proof.
  unfold failure_of.
  induction fuel as [ | fuel IH]; intros page acc hist req e Hin Hfail;
    [destruct Hin | ].
  rewrite get_servers_loop_step in *.
  destruct (http E (page_request cfg page)) as [e' | r'] eqn:Hr.
  { destruct Hin as [[= <-] | []]. rewrite Hr in Hfail. injection Hfail as <-.
    split; [reflexivity | exists []; reflexivity]. }
  destruct (status_error r') eqn:Hs.
  { destruct Hin as [[= <-] | []]. rewrite Hr, Hs in Hfail. injection Hfail as <-.
    split; [reflexivity | exists []; reflexivity]. }
  destruct (json_body r') as [body | ] eqn:Hb.
  2:{ destruct Hin as [[= <-] | []]. rewrite Hr, Hs, Hb in Hfail.
      injection Hfail as <-. split; [reflexivity | exists []; reflexivity]. }
  destruct (default [] (data body)) as [ | s page'].
  { destruct Hin as [[= <-] | []]. rewrite Hr, Hs, Hb in Hfail. discriminate. }
  simpl in Hin. destruct Hin as [[= <-] | Hin].
  { rewrite Hr, Hs, Hb in Hfail. discriminate. }
  destruct (IH _ _ _ _ _ Hin Hfail) as [Hout [earlier Hevs]].
  simpl. split; [exact Hout | ].
  exists (HttpGet (page_request cfg page) :: earlier). rewrite Hevs. reflexivity.
Qed.

(** [parse] once the parent class and the reading of the configuration have
    returned. *)
Lemma parse_after_setup fuel path cache hist :
  framework E hist (BaseParse path cache) = None ->
  framework E (hist ++ [BaseParse path cache]) (ReadConfigData path) = None ->
  exists h,
    fst (parse E cfg fuel path cache hist) =
    [BaseParse path cache; ReadConfigData path] ++
    fst (get_servers E cfg fuel h) ++
    match snd (get_servers E cfg fuel h) with
    | Return servers =>
        fst (for_each servers (add_sever E cfg) (h ++ fst (get_servers E cfg fuel h)))
    | _ => []
    end /\
    snd (parse E cfg fuel path cache hist) =
    match snd (get_servers E cfg fuel h) with
    | Return servers =>
        snd (for_each servers (add_sever E cfg) (h ++ fst (get_servers E cfg fuel h)))
    | Raise e => Raise e
    | OutOfFuel => OutOfFuel
    end.
Proof.
  intros Hbase Hread.
  unfold parse. rewrite !bind_events, !bind_outcome. simpl call.
  simpl fst. simpl snd. rewrite Hbase, Hread.
  exists ((hist ++ [BaseParse path cache]) ++ [ReadConfigData path]).
  split; reflexivity.
Qed.

End FetcherRequests.

Lemma page_request_inj (cfg : Config) (a b : Z) :
  page_request cfg a = page_request cfg b -> a = b.
Proof. intros H. injection H as H. exact H. Qed.

(** C7. When a page request is answered with a non-success status, one on
    which [raise_for_status] raises (the plugin reads the status in no
    other way), the fetch fails at that request and at once: the parse
    ends with the [HTTPError]; the request is the last call of the run and
    was made exactly once (no retry); the calls of the run are the two of
    the setup and then the requests for the pages 1, 2, ..., [m], each
    once, the failed one being that for page [m] (no further page); and
    no host is registered, whatever the earlier pages held. *)
Theorem status_error_aborts_parse
    (E : Env) (cfg : Config) (fuel : nat) (path : string) (cache : bool)
    (hist : list Event) (req : Request) (r : Response) :
  In (HttpGet req) (fst (parse E cfg fuel path cache hist)) ->
  http E req = inr r ->
  status_error r = true ->
  snd (parse E cfg fuel path cache hist) = Raise HTTPError /\
  (exists earlier,
      fst (parse E cfg fuel path cache hist) = earlier ++ [HttpGet req] /\
      ~ In (HttpGet req) earlier) /\
  (exists m,
      1 <= m /\
      req = page_request cfg (Z.of_nat m) /\
      fst (parse E cfg fuel path cache hist) =
      [BaseParse path cache; ReadConfigData path] ++
      map (fun k => HttpGet (page_request cfg (Z.of_nat k))) (seq 1 m)) /\
  added_hosts (fst (parse E cfg fuel path cache hist)) = [].
Proof.
  intros Hin Hreq Hbad.
  destruct (parse_cases E cfg fuel path cache hist)
    as [[Hsetup _] | [h [Hevs Hout]]].
  { rewrite List.Forall_forall in Hsetup. destruct (Hsetup _ Hin). }
  rewrite Hevs in Hin. rewrite Hevs, Hout. clear Hevs Hout.
  apply in_app_or in Hin as [Hin | Hin].
  { destruct Hin as [Hin | [Hin | []]]; discriminate. }
  apply in_app_or in Hin as [Hin | Hin].
  - destruct (get_servers_loop_status_error E cfg fuel 1 [] h req r Hin Hreq Hbad)
      as [Hraise [earlier Hgets]].
    destruct (get_servers_loop_requests E cfg fuel 1 [] h)
      as (m & _ & Hreqs & _ & _).
    fold (get_servers E cfg fuel h) in Hraise, Hgets.
    change (get_servers_loop E cfg fuel (Z.of_nat 1) [] h)
      with (get_servers E cfg fuel h) in Hreqs.
    pose proof (get_servers_no_host E cfg fuel h) as Hnone.
    rewrite Hraise, app_nil_r.
    assert (exists m',
               m = S m' /\
               earlier = map (fun k => HttpGet (page_request cfg (Z.of_nat k)))
                             (seq 1 m') /\
               req = page_request cfg (Z.of_nat (S m'))) as (m' & -> & Hearlier & Hlast).
    { destruct m as [ | m'].
      - rewrite Hgets in Hreqs. destruct earlier; discriminate.
      - exists m'. split; [reflexivity | ].
        rewrite List.seq_S, List.map_app, Hgets in Hreqs. simpl map in Hreqs.
        apply List.app_inj_tail in Hreqs as [He Hl].
        injection Hl as Hl. split; assumption. }
    split; [reflexivity | ]. split; [ | split].
    + exists ([BaseParse path cache; ReadConfigData path] ++ earlier). split.
      * rewrite Hgets, <- app_assoc. reflexivity.
      * intros Hdup. apply in_app_or in Hdup as [Hdup | Hdup].
        { destruct Hdup as [Hdup | [Hdup | []]]; discriminate. }
        rewrite Hearlier in Hdup. apply List.in_map_iff in Hdup as (k & Hk & Hseq).
        apply List.in_seq in Hseq. injection Hk as Hk. rewrite Hlast in Hk.
        apply page_request_inj in Hk. lia.
    + exists (S m'). split; [lia | ]. split; [exact Hlast | ].
      rewrite Hreqs. reflexivity.
    + rewrite added_hosts_app, (added_hosts_none _ Hnone). reflexivity.
  - destruct (snd (get_servers E cfg fuel h)) as [servers | e | ]; try destruct Hin.
    pose proof (emits_for_each assembler_call servers (add_sever E cfg)
                  (add_sever_assembler_calls E cfg)
                  (h ++ fst (get_servers E cfg fuel h))) as Hcalls.
    rewrite List.Forall_forall in Hcalls. destruct (Hcalls _ Hin).
Qed.

Lemma status_error_aborts_parse_witness :
  parse {| http := paged_failing [[db_staging_1]] 2; framework := quiet |}
    no_filters 5 "latitude.yml" true [] =
  ([BaseParse "latitude.yml" true; ReadConfigData "latitude.yml";
    HttpGet (page_request no_filters 1); HttpGet (page_request no_filters 2)],
   Raise HTTPError) /\
  snd (parse {| http := paged_failing [[db_staging_1]] 2; framework := quiet |}
         no_filters 5 "latitude.yml" true []) = Raise HTTPError /\
  added_hosts
    (fst (parse {| http := paged_failing [[db_staging_1]] 2; framework := quiet |}
            no_filters 5 "latitude.yml" true [])) = [].
Proof.
  split; [vm_compute; reflexivity | ].
  destruct (status_error_aborts_parse
              {| http := paged_failing [[db_staging_1]] 2; framework := quiet |}
              no_filters 5 "latitude.yml" true []
              (page_request no_filters 2)
              {| status_error := true; json_body := None |})
    as (Hraise & _ & _ & Hhosts).
  - vm_compute. right; right; right; left. reflexivity.
  - reflexivity.
  - reflexivity.
  - split; [exact Hraise | exact Hhosts].
Defined.


(** X12. Any failure of a page request, be it the exception of
    [requests.get] (connection, timeout), the [HTTPError] of
    [raise_for_status] or a body that is not JSON, ends the parse with that
    exception at that request: the request is the last call of the run, and
    no host is registered, whatever the earlier pages held. *)
Theorem request_failure_aborts_parse
    (E : Env) (cfg : Config) (fuel : nat) (path : string) (cache : bool)
    (hist : list Event) (req : Request) (e : Exn) :
  In (HttpGet req) (fst (parse E cfg fuel path cache hist)) ->
  failure_of E req = Some e ->
  snd (parse E cfg fuel path cache hist) = Raise e /\
  (exists earlier, fst (parse E cfg fuel path cache hist) = earlier ++ [HttpGet req]) /\
  added_hosts (fst (parse E cfg fuel path cache hist)) = [].
Proof.
  intros Hin Hfail.
  destruct (parse_cases E cfg fuel path cache hist)
    as [[Hsetup _] | [h [Hevs Hout]]].
  { rewrite List.Forall_forall in Hsetup. destruct (Hsetup _ Hin). }
  rewrite Hevs in Hin. rewrite Hevs, Hout. clear Hevs Hout.
  apply in_app_or in Hin as [Hin | Hin].
  { destruct Hin as [Hin | [Hin | []]]; discriminate. }
  apply in_app_or in Hin as [Hin | Hin].
  - destruct (get_servers_loop_failure E cfg fuel 1 [] h req e Hin Hfail)
      as [Hraise [earlier Hgets]].
    fold (get_servers E cfg fuel h) in Hraise, Hgets.
    pose proof (get_servers_no_host E cfg fuel h) as Hnone.
    rewrite Hraise. rewrite app_nil_r. split; [reflexivity | ]. split.
    + exists ([BaseParse path cache; ReadConfigData path] ++ earlier).
      rewrite Hgets, <- app_assoc. reflexivity.
    + rewrite added_hosts_app, (added_hosts_none _ Hnone). reflexivity.
  - destruct (snd (get_servers E cfg fuel h)) as [servers | e' | ]; try destruct Hin.
    pose proof (emits_for_each assembler_call servers (add_sever E cfg)
                  (add_sever_assembler_calls E cfg)
                  (h ++ fst (get_servers E cfg fuel h))) as Hcalls.
    rewrite List.Forall_forall in Hcalls. destruct (Hcalls _ Hin).
Qed.

Lemma request_failure_aborts_parse_witness :
  snd (parse {| http := paged_broken [[db_staging_1]] 2 (inl RequestException);
                framework := quiet |}
         no_filters 5 "latitude.yml" true []) = Raise RequestException /\
  snd (parse {| http := paged_broken [[db_staging_1]] 2
                          (inr {| status_error := false; json_body := None |});
                framework := quiet |}
         no_filters 5 "latitude.yml" true []) = Raise JSONDecodeError.
Proof.
  split.
  - apply (request_failure_aborts_parse
             {| http := paged_broken [[db_staging_1]] 2 (inl RequestException);
                framework := quiet |}
             no_filters 5 "latitude.yml" true [] (page_request no_filters 2)
             RequestException).
    + vm_compute. right; right; right; left. reflexivity.
    + reflexivity.
  - apply (request_failure_aborts_parse
             {| http := paged_broken [[db_staging_1]] 2
                          (inr {| status_error := false; json_body := None |});
                framework := quiet |}
             no_filters 5 "latitude.yml" true [] (page_request no_filters 2)
             JSONDecodeError).
    + vm_compute. right; right; right; left. reflexivity.
    + reflexivity.
Defined.

(** X14. The loop of [get_servers] has no ceiling on the number of pages:
    over an API that answers every page with a non-empty list it asks for
    page after page and never returns; whatever the fuel, all of it is
    spent on requests for the pages 1, 2, ... *)
Theorem get_servers_has_no_ceiling (E : Env) (cfg : Config) :
  (forall page, exists r s servers,
      http E (page_request cfg page) = inr r /\ page_of r = Some (s :: servers)) ->
  forall fuel hist,
    get_servers E cfg fuel hist =
    (map (fun k => HttpGet (page_request cfg (Z.of_nat k))) (seq 1 fuel),
     OutOfFuel).
Proof.
  intros Hapi fuel hist.
  pose proof (get_servers_never_empty E cfg Hapi fuel hist) as Hout.
  destruct (get_servers_loop_requests E cfg fuel 1 [] hist)
    as (m & _ & Hevs & _ & Hfuel).
  fold (get_servers E cfg fuel hist) in Hevs, Hfuel.
  rewrite (Hfuel Hout) in Hevs.
  apply injective_projections; simpl; assumption.
Qed.

Lemma get_servers_has_no_ceiling_witness :
  get_servers {| http := endless []; framework := quiet |} no_filters 3 [] =
  ([HttpGet (page_request no_filters 1); HttpGet (page_request no_filters 2);
    HttpGet (page_request no_filters 3)], OutOfFuel).
Proof.
  apply (get_servers_has_no_ceiling {| http := endless []; framework := quiet |}
           no_filters).
  intros page. exists (ok_page [server1]), server1, []. split; reflexivity.
Defined.

(** X15. An empty first page is an empty inventory, not an error: a first
    answer with an empty [data], or with no [data] at all, makes
    [get_servers] return the empty list after that one request, and the
    parse return without a single call on the inventory. *)
Theorem empty_first_page
    (E : Env) (cfg : Config) (r : Response) :
  http E (page_request cfg 1) = inr r ->
  page_of r = Some [] ->
  (forall fuel hist,
      1 <= fuel ->
      get_servers E cfg fuel hist = ([HttpGet (page_request cfg 1)], Return [])) /\
  (forall fuel path cache hist,
      1 <= fuel ->
      framework E hist (BaseParse path cache) = None ->
      framework E (hist ++ [BaseParse path cache]) (ReadConfigData path) = None ->
      parse E cfg fuel path cache hist =
      ([BaseParse path cache; ReadConfigData path; HttpGet (page_request cfg 1)],
       Return tt)).
Proof.
  intros Hr Hp.
  assert (forall fuel hist,
             1 <= fuel ->
             get_servers E cfg fuel hist =
             ([HttpGet (page_request cfg 1)], Return [])) as Hfetch.
  { intros fuel hist Hfuel.
    apply (get_servers_loop_pages E cfg [] fuel 1 [] hist).
    - constructor.
    - intros [ | i] p Hi; [ | destruct i; discriminate].
      injection Hi as <-. exists r. split; assumption.
    - simpl. lia. }
  split; [exact Hfetch | ].
  intros fuel path cache hist Hfuel Hbase Hread.
  destruct (parse_after_setup E cfg fuel path cache hist Hbase Hread)
    as (h & Hevs & Hout).
  rewrite (Hfetch fuel h Hfuel) in Hevs, Hout.
  apply injective_projections; simpl; assumption.
Qed.

Lemma empty_first_page_witness :
  parse (sample_env []) no_filters 1 "latitude.yml" true [] =
  ([BaseParse "latitude.yml" true; ReadConfigData "latitude.yml";
    HttpGet (page_request no_filters 1)], Return tt) /\
  page_of {| status_error := false; json_body := Some {| data := None |} |}
  = Some [].
Proof.
  split; [ | reflexivity].
  apply (proj2 (empty_first_page (sample_env []) no_filters (ok_page [])
                  eq_refl eq_refl)); [lia | reflexivity | reflexivity].
Defined.

(** ** More on the parse *)

Lemma bind_assoc {A B C} (m : M A) (f : A -> M B) (g : B -> M C) hist :
  bind (bind m f) g hist = bind m (fun a => bind (f a) g) hist.
Proof.
  unfold bind. destruct (m hist) as [evs [a | e | ]]; try reflexivity.
  destruct (f a (hist ++ evs)) as [evs' [b | e | ]]; try reflexivity.
  rewrite <- app_assoc.
  destruct (g b (hist ++ evs ++ evs')) as [evs'' o]. rewrite app_assoc.
  reflexivity.
Qed.

Lemma bind_ext {A B} (m : M A) (f g : A -> M B) hist :
  (forall a h, f a h = g a h) -> bind m f hist = bind m g hist.
Proof.
  intros Hfg. unfold bind. destruct (m hist) as [evs [a | e | ]]; try reflexivity.
  rewrite Hfg. reflexivity.
Qed.

Lemma for_each_app {A} (xs ys : list A) (body : A -> M unit) :
  forall hist,
    for_each (xs ++ ys) body hist =
    bind (for_each xs body) (fun _ => for_each ys body) hist.
Proof.
  induction xs as [ | x xs IH]; intros hist; simpl app; simpl for_each.
  - rewrite bind_ret. reflexivity.
  - rewrite bind_assoc. apply bind_ext. intros _ h. apply IH.
Qed.

(** X16. A failure of the parent class or of the reading of the
    configuration ends the parse before anything is fetched: the exception
    is raised as it is, and no page request and no call on the inventory
    is made. *)
Theorem setup_failure_precedes_fetch
    (E : Env) (cfg : Config) (fuel : nat) (path : string) (cache : bool)
    (hist : list Event) (e : Exn) :
  (framework E hist (BaseParse path cache) = Some e ->
   parse E cfg fuel path cache hist = ([BaseParse path cache], Raise e)) /\
  (framework E hist (BaseParse path cache) = None ->
   framework E (hist ++ [BaseParse path cache]) (ReadConfigData path) = Some e ->
   parse E cfg fuel path cache hist =
   ([BaseParse path cache; ReadConfigData path], Raise e)).
Proof.
  split.
  - intros Hbase. unfold parse, bind at 1, call at 1. rewrite Hbase. reflexivity.
  - intros Hbase Hread. unfold parse, bind at 1, call at 1. rewrite Hbase.
    unfold bind at 1, call at 1. rewrite Hread. reflexivity.
Qed.

Lemma setup_failure_precedes_fetch_witness :
  parse {| http := paged [[db_staging_1]];
           framework := rejecting is_read_config_data
                          (AnsibleError "latitude_project is required") |}
    no_filters 5 "latitude.yml" true [] =
  ([BaseParse "latitude.yml" true; ReadConfigData "latitude.yml"],
   Raise (AnsibleError "latitude_project is required")).
Proof.
  apply (proj2 (setup_failure_precedes_fetch
                  {| http := paged [[db_staging_1]];
                     framework := rejecting is_read_config_data
                                    (AnsibleError "latitude_project is required") |}
                  no_filters 5 "latitude.yml" true []
                  (AnsibleError "latitude_project is required")));
    reflexivity.
Defined.

(** X17. Every parse runs in three phases that never interleave: the calls
    of the parent class and of the configuration, then all the page
    requests, then the calls on the inventory and the delegations. No
    host is registered before the last page request is answered, and no
    request is made once the first record is being mapped. *)
Theorem parse_fetches_before_it_registers
    (E : Env) (cfg : Config) (fuel : nat) (path : string) (cache : bool)
    (hist : list Event) :
  exists setup requests calls,
    fst (parse E cfg fuel path cache hist) = setup ++ requests ++ calls /\
    Forall setup_call setup /\
    Forall http_call requests /\
    Forall assembler_call calls.
Proof.
  destruct (parse_cases E cfg fuel path cache hist)
    as [[Hsetup _] | [h [Hevs _]]].
  - exists (fst (parse E cfg fuel path cache hist)), [], [].
    rewrite !app_nil_r. repeat split; [exact Hsetup | constructor | constructor].
  - exists [BaseParse path cache; ReadConfigData path],
      (fst (get_servers E cfg fuel h)),
      (match snd (get_servers E cfg fuel h) with
       | Return servers =>
           fst (for_each servers (add_sever E cfg)
                  (h ++ fst (get_servers E cfg fuel h)))
       | _ => []
       end).
    split; [exact Hevs | ]. split; [repeat constructor | ]. split.
    + apply emits_get_servers_loop. intros req; exact I.
    + destruct (snd (get_servers E cfg fuel h)) as [servers | e | ];
        try constructor.
      apply emits_for_each. apply add_sever_assembler_calls.
Qed.

Lemma parse_returns_witness :
  snd (parse (sample_env [[db_staging_1; web_prod_2]; [server1]]) no_filters 3
         "latitude.yml" true []) = Return tt.
Proof.
  apply (parse_returns (sample_env [[db_staging_1; web_prod_2]; [server1]])
           no_filters [[db_staging_1; web_prod_2]; [server1]] 3
           "latitude.yml" true []).
  - reflexivity.
  - repeat constructor; discriminate.
  - intros [ | [ | [ | i]]] p Hi; simpl in Hi.
    + injection Hi as <-. eexists. split; reflexivity.
    + injection Hi as <-. eexists. split; reflexivity.
    + injection Hi as <-. eexists. split; reflexivity.
    + destruct i; discriminate.
  - simpl. lia.
  - intros server [<- | [<- | [<- | []]]];
      eexists _, _, _; (split; [reflexivity | ]); split; vm_compute; reflexivity.
Defined.

(** X19. The loop of [parse] over the fetched records fails fast: when the
    records before one are mapped and that one raises, the loop raises the
    same exception after the calls made so far, and the records after it
    cause no call at all: no record is skipped to go on with the next. *)
Theorem parse_loop_fails_fast
    (E : Env) (cfg : Config) (pre post : list Server) (server : Server)
    (hist evs evs' : list Event) (e : Exn) :
  for_each pre (add_sever E cfg) hist = (evs, Return tt) ->
  add_sever E cfg server (hist ++ evs) = (evs', Raise e) ->
  for_each (pre ++ server :: post) (add_sever E cfg) hist =
  (evs ++ evs', Raise e).
Proof.
  intros Hpre Hserver. rewrite for_each_app. unfold bind at 1. rewrite Hpre.
  simpl for_each. unfold bind. rewrite Hserver. reflexivity.
Qed.

Lemma parse_loop_fails_fast_witness :
  for_each ([db_staging_1] ++ no_ip :: [server1])
    (add_sever (sample_env []) no_filters) [] =
  (fst (add_sever (sample_env []) no_filters db_staging_1 []) ++
   [AddGroup "prod"; AddHost "web-prod-01" (Some "prod")],
   Raise (KeyError "primary_ipv4")).
Proof.
  apply (parse_loop_fails_fast (sample_env []) no_filters [db_staging_1] [server1]
           no_ip []).
  - vm_compute. reflexivity.
  - vm_compute. reflexivity.
Defined.

(** ** Groups of the hosts of a parse *)

Section HostGroups.
Context (E : Env) (cfg : Config).

(** A property of the calls of [add_sever] that holds of every call but
    [add_host] needs checking on the one [add_host], made under the label
    the classifier returned. *)
Lemma add_sever_emits_host (P : Event -> Prop) server :
  (forall ev, adds_no_host ev -> P ev) ->
  (forall hostname hist group,
      hostname_of server = Some hostname ->
      snd (get_hosts_group E cfg hostname hist) = Return group ->
      P (AddHost hostname group)) ->
  emits P (add_sever E cfg server).
Proof.
  intros Hother Hhost hist.
  destruct (hostname_of server) as [hostname | ] eqn:Hn.
  - destruct (hostname_of_Some server hostname Hn) as (attrs & Ha & Hh).
    destruct (add_sever_hostname E cfg server attrs hostname hist Ha Hh)
      as [tail [Htail Hevs]].
    rewrite Hevs. apply Forall_app. split.
    + pose proof (get_hosts_group_no_host E cfg hostname hist) as Hcls.
      eapply List.Forall_impl; [exact Hother | exact Hcls].
    + destruct (snd (get_hosts_group E cfg hostname hist)) as [group | e | ] eqn:Hg;
        try constructor.
      * apply (Hhost hostname hist group eq_refl Hg).
      * apply registers_nothing_no_host in Htail.
        eapply List.Forall_impl; [exact Hother | exact Htail].
  - destruct (add_sever_no_identity E cfg server hist Hn) as [e Hrun].
    rewrite Hrun. constructor.
Qed.

Lemma parse_emits_host (P : Event -> Prop) fuel path cache :
  (forall ev, adds_no_host ev -> P ev) ->
  (forall server hostname hist group,
      hostname_of server = Some hostname ->
      snd (get_hosts_group E cfg hostname hist) = Return group ->
      P (AddHost hostname group)) ->
  emits P (parse E cfg fuel path cache).
Proof.
  intros Hother Hhost. unfold parse.
  apply emits_bind; [apply emits_call, Hother; exact I | intros _].
  apply emits_bind; [apply emits_call, Hother; exact I | intros _].
  apply emits_bind; [apply emits_get_servers_loop; intros; apply Hother; exact I
                    | intros servers].
  apply emits_for_each. intros server.
  apply add_sever_emits_host; [exact Hother | apply Hhost].
Qed.

End HostGroups.

(** X20. In every parse, with any filters, a host is put in a group only
    if that group is the second "-"-separated field of its own hostname:
    no host is ever registered under a group that comes from elsewhere
    (another record, an option, an attribute of the API). *)
Theorem hosts_grouped_by_their_hostname
    (E : Env) (cfg : Config) (fuel : nat) (path : string) (cache : bool)
    (hist : list Event) :
  Forall grouped_by_hostname (fst (parse E cfg fuel path cache hist)).
Proof.
  apply parse_emits_host.
  - intros [] H; simpl in *; try exact I. destruct H.
  - intros server hostname h group _ Hg. destruct group as [g | ]; [ | exact I].
    unfold grouped_by_hostname.
    destruct (nth_error (str_split "-" hostname) 1) as [g0 | ] eqn:Hc.
    + destruct (get_hosts_group_candidate E cfg hostname g0 h Hc)
        as [_ [Hout | [Hout | [e Hout]]]]; rewrite Hout in Hg;
        try discriminate.
      injection Hg as ->. reflexivity.
    + rewrite (get_hosts_group_no_candidate E cfg hostname h Hc) in Hg.
      discriminate.
Qed.

(** X21. A non-empty [include_tags] list ungroups the whole inventory: in
    every parse under such an option no host is put in any group, every
    [add_host] being made with no group, whatever the hostnames and the
    tags are. *)
Theorem include_list_ungroups_every_host
    (E : Env) (cfg : Config) (fuel : nat) (path : string) (cache : bool)
    (hist : list Event) (tags : list pyval) :
  tags <> [] ->
  include_tags cfg = PyList tags ->
  Forall adds_ungrouped (fst (parse E cfg fuel path cache hist)).
Proof.
  intros Hne Hinc. apply parse_emits_host.
  - intros [] H; simpl in *; try exact I. destruct H.
  - intros server hostname h group _ Hg. destruct group as [g | ]; [ | exact I].
    simpl. destruct (nth_error (str_split "-" hostname) 1) as [g0 | ] eqn:Hc.
    + pose proof (get_hosts_group_returned E cfg hostname g0 h (Some g) Hc Hg)
        as Hlabel.
      rewrite Hinc in Hlabel. destruct tags; [congruence | discriminate].
    + rewrite (get_hosts_group_no_candidate E cfg hostname h Hc) in Hg.
      discriminate.
Qed.

Lemma include_list_ungroups_every_host_witness :
  Forall adds_ungrouped
    (fst (parse (sample_env [[db_staging_1; web_prod_2]])
            (with_include (PyList [PyStr "prod"]) no_filters) 2
            "latitude.yml" true [])) /\
  added_hosts
    (fst (parse (sample_env [[db_staging_1; web_prod_2]])
            (with_include (PyList [PyStr "prod"]) no_filters) 2
            "latitude.yml" true [])) = ["db-staging-1"; "web-prod-2"].
Proof.
  split; [ | vm_compute; reflexivity].
  apply (include_list_ungroups_every_host
           (sample_env [[db_staging_1; web_prod_2]])
           (with_include (PyList [PyStr "prod"]) no_filters) 2
           "latitude.yml" true [] [PyStr "prod"]).
  - discriminate.
  - reflexivity.
Defined.
